(** * rngd: the random number generator daemon (rngd.c)

    A shallow embedding of [rngd.c]: the process globals, the pidfile lock,
    the statistics block and the main thread's life cycle, written as
    functions over an explicit world in a small monad that records the
    observable events of a run (log lines, system calls, process exit). *)

From Stdlib Require Import ZArith List String Ascii Bool Lia QArith.
From Stdlib Require Import DecimalString DecimalPos.
Import ListNotations.

Local Open Scope string_scope.
Local Open Scope Z_scope.
Local Open Scope list_scope.

(** ** C integer types *)

Record ctype := { bits : Z; is_signed : bool }.

Definition c_int : ctype := {| bits := 32; is_signed := true |}.

(** Reduction of a mathematical integer to the value a C object of type
    [t] holds (two's complement for the signed types). *)
Definition wrap (t : ctype) (x : Z) : Z :=
  if is_signed t
  then (x + 2 ^ (bits t - 1)) mod 2 ^ bits t - 2 ^ (bits t - 1)
  else x mod 2 ^ bits t.

Definition in_range (t : ctype) (x : Z) : Prop :=
  if is_signed t
  then - 2 ^ (bits t - 1) <= x < 2 ^ (bits t - 1)
  else 0 <= x < 2 ^ bits t.

(** The printf directive [%d] reads its argument as an [int]. *)
Definition fmt_d (x : Z) : Z := wrap c_int x.

(** ** Exit codes, enumerations of the missing headers *)

(** Modelled from the spec: [exits.h] is not among the sources.  The exit
    code contract lists three codes: success; usage/configuration error;
    operating-system/resource error.  They are kept symbolic, under the
    names [rngd.c] uses. *)
Inductive exit_status := EXIT_SUCCESS | EXIT_USAGE | EXIT_OSERR.

(** [kernel_mode_t] of [rngd_linux.h]: only [KERNEL_UNSUPPORTED] is named
    in [rngd.c]; every other mode is a supported kernel. *)
Inductive kernel_mode_t := KERNEL_UNSUPPORTED | KERNEL_supported (mode : nat).

Inductive entropy_source_driver_t := RNGD_ENTSOURCE_UNIXSTREAM.

Inductive errno_t := EINTR | EWOULDBLOCK | E_other (code : Z).

(** The three worker thread entry points of [rngd_threads.h]. *)
Inductive worker :=
  do_rng_data_source_loop | do_rng_fips_test_loop | do_rng_data_sink_loop.

Inductive stats_group := group1_mutex | group2_mutex | group3_mutex.

(** ** Configuration: [struct arguments] and [default_arguments] *)

Record arguments_t := {
  rng_name : string;
  random_name : string;
  pidfile_name : string;
  feed_interval : Z;
  random_step : Z;
  fill_watermark : Z;
  rng_timeout : Z;
  daemon : Z;
  rng_entropy : Q;
  rng_buffers : Z;
  rng_quality : Z;
  rng_driver : entropy_source_driver_t
}.

Definition DEVHWRANDOM := "/dev/urandom".
Definition DEVRANDOM := "/dev/random".
Definition PIDFILE := "/data/rngd.pid".
Definition RNGD_STAT_SLEEP_TIME : Z := 3600.

Definition default_arguments : arguments_t := {|
  rng_name := DEVHWRANDOM;
  random_name := DEVRANDOM;
  pidfile_name := PIDFILE;
  feed_interval := 5;
  random_step := 64;
  fill_watermark := -90;
  rng_timeout := 10;
  daemon := 1;
  rng_entropy := 1;
  rng_buffers := 3;
  rng_quality := 0;
  rng_driver := RNGD_ENTSOURCE_UNIXSTREAM
|}.

(** ** Log lines and events *)

Inductive priority := LOG_VERBOSE | LOG_INFO | LOG_ERROR.

(** One constructor per format string of [rngd.c]; the arguments are the
    values handed to the conversions. *)
Inductive message :=
| MsgDieStatus (status : exit_status)     (* "Exiting with status %d..." *)
| MsgCantOpen (path : string)             (* "can't open or create %s" *)
| MsgCantLockPid (path : string) (otherpid : Z)
                      (* "can't lock %s, running daemon's pid may be %d" *)
| MsgCantLock (path : string)             (* "can't lock %s" *)
| MsgBitsReceived (v : Z)         (* "%d bits received from HRNG source" *)
| MsgBitsSent (v : Z)             (* "%d bits send to kernel pool" *)
| MsgEntropyAdded (v : Z)         (* "%d entropy added to kernel pool" *)
| MsgFipsSuccesses (v : Z)        (* "%d FIPS 140-2 successes" *)
| MsgFipsFailures (v : Z)         (* "%d FIPS 140-2 failures" *)
| MsgUnsupportedKernel        (* "Unsupported kernel detected, exiting..." *)
| MsgCantDaemonize                        (* "can't daemonize" *)
| MsgStartingUp                           (* "rngd 2.14 starting up..." *)
| MsgNoThreads              (* "Insufficient resources to start threads" *)
| MsgExiting                              (* "Exiting..." *)
| MsgExitingStatus (status : exit_status). (* "Exiting with status %d" *)

Inductive event :=
| EvLog (p : priority) (m : message)
| EvExit (status : exit_status)
| EvOpen (path : string)
| EvFdopen (fd : Z)
| EvFcntl (fd : Z)
| EvFlock (fd : Z)
| EvRewind
| EvFscanf
| EvFprintf (s : string)
| EvFflush
| EvFtruncate (fd : Z) (len : nat)
| EvGetpid
| EvKernelMode
| EvClose (fd : Z)
| EvSetStatPrefix (s : string)
| EvMutexInit (g : stats_group)
| EvLock (g : stats_group)
| EvUnlock (g : stats_group)
| EvInitSighandlers
| EvInitEntropySource
| EvInitKernelRng
| EvDaemon
| EvInitRngBuffers (n : Z)
| EvPthreadCreate (t : worker)
| EvSleep (secs : Z).

(** ** Streams and the pidfile *)

(** A stdio stream on the pidfile: its descriptor, its position, and the
    output that [fprintf] has buffered but [fflush] has not yet written
    (the offset it starts at, and the bytes). *)
Record FILE := {
  f_fd : Z;
  f_pos : nat;
  f_pending : option (nat * string)
}.

Fixpoint take (n : nat) (s : string) : string :=
  match n, s with
  | O, _ => EmptyString
  | S _, EmptyString => EmptyString
  | S n', String c r => String c (take n' r)
  end.

Fixpoint drop (n : nat) (s : string) : string :=
  match n, s with
  | O, _ => s
  | S _, EmptyString => EmptyString
  | S n', String _ r => drop n' r
  end.

(** Writing [data] at offset [off] of a file holding [content] (offsets
    past the end are filled with NUL bytes, as the kernel does). *)
Fixpoint pad (n : nat) : string :=
  match n with O => EmptyString | S n' => String zero (pad n') end.

Definition pwrite (content : string) (off : nat) (data : string) : string :=
  (take off content ++ pad (off - String.length content)
     ++ data ++ drop (off + String.length data) content)%string.

Definition truncate_to (content : string) (len : nat) : string :=
  (take len content ++ pad (len - String.length content))%string.

(** *** The [%d] conversion of [fscanf] *)

Definition is_space (c : ascii) : bool :=
  let n := nat_of_ascii c in
  (Nat.eqb n 32 || (Nat.leb 9 n && Nat.leb n 13))%bool.

Definition digit_of (c : ascii) : option Z :=
  let n := nat_of_ascii c in
  if (Nat.leb 48 n && Nat.leb n 57)%bool then Some (Z.of_nat (n - 48)) else None.

Fixpoint skip_space (s : string) : string :=
  match s with
  | String c r => if is_space c then skip_space r else s
  | EmptyString => s
  end.

Fixpoint scan_digits (acc : Z) (s : string) : Z * string :=
  match s with
  | String c r =>
      match digit_of c with
      | Some d => scan_digits (10 * acc + d) r
      | None => (acc, s)
      end
  | EmptyString => (acc, s)
  end.

(** [scan_d s]: white space is skipped, then an optional sign and a
    non-empty run of decimal digits are converted and stored in an [int];
    [None] is a matching failure (nothing is stored).  The second
    component is the input left unread. *)
Definition scan_d (s : string) : option Z * string :=
  let s1 := skip_space s in
  let '(neg, s2) :=
    match s1 with
    | String "-" r => (true, r)
    | String "+" r => (false, r)
    | _ => (false, s1)
    end in
  match s2 with
  | String c _ =>
      match digit_of c with
      | Some _ =>
          let '(v, rest) := scan_digits 0 s2 in
          (Some (wrap c_int (if neg then - v else v)), rest)
      | None => (None, s1)
      end
  | EmptyString => (None, s1)
  end.

(** The [%ld\n] line that [get_lock] prints. *)
Definition newline : string := String "010" EmptyString.

Definition pid_line (pid : Z) : string :=
  (NilZero.string_of_int (Z.to_int pid) ++ newline)%string.

(** ** The statistics block, the world and the monad *)

(** Modelled from the spec: [fips.h] is not among the sources; the
    per-test failure counters are monobit, poker, runs, long-run and
    continuous-run. *)
Definition N_FIPS_TESTS : nat := 5.

(** Result of a computation: it returns, the process has exited, the
    process is still running when the recorded behaviour of its
    environment ends (it is blocked in a system call), or it has used a
    NULL stream. *)
Inductive result (A : Type) :=
| Ret (a : A)
| Exit (status : exit_status)
| Running
| Fault.
Arguments Ret {A} a.
Arguments Exit {A} status.
Arguments Running {A}.
Arguments Fault {A}.

(** [rngd.h] and [stats.h] are not among the sources: the integer type of
    the counters of [struct rng_stats], and [struct rng_stat] with the
    value all of whose bytes are zero, are parameters. *)
Class StatsTypes : Type := {
  counter_t : ctype;
  rng_stat : Type;
  rng_stat_zero : rng_stat
}.

Section Rngd.

Context {ST : StatsTypes}.

Record rng_stats_t := {
  bytes_received : Z;
  source_blockfill : rng_stat;
  fips_blockfill : rng_stat;
  bad_fips_blocks : Z;
  good_fips_blocks : Z;
  fips_failures : list Z;
  bytes_sent : Z;
  entropy_sent : Z;
  sink_starved : Z;
  buffer_lowmark : Z;
  sink_wait : rng_stat
}.

(** The globals of [rngd.c], the two flags of [rngd_signals.h], and the
    part of the operating system the file talks to: the process id, the
    bytes of the pidfile and whether this process holds its lock. *)
Record world := {
  rng_stats : rng_stats_t;
  masterprocess : Z;
  am_daemon : Z;
  exitstatus : exit_status;
  daemon_lockfp : option FILE;
  daemon_lockfd : Z;
  kernel : kernel_mode_t;
  arguments : arguments_t;
  gotsigterm : Z;
  gotsigusr1 : Z;
  os_pid : Z;
  os_pidfile : string;
  os_locked : bool
}.

Record run (A : Type) := {
  events : list event;
  final : world;
  outcome : result A
}.
Arguments events {A} r.
Arguments final {A} r.
Arguments outcome {A} r.

Definition M (A : Type) : Type := world -> run A.

Definition ret {A} (a : A) : M A :=
  fun w => {| events := []; final := w; outcome := Ret a |}.

Definition bind {A B} (m : M A) (k : A -> M B) : M B :=
  fun w =>
    match m w with
    | {| events := ev; final := w1; outcome := o |} =>
        match o with
        | Ret a =>
            match k a w1 with
            | {| events := ev'; final := w2; outcome := o' |} =>
                {| events := ev ++ ev'; final := w2; outcome := o' |}
            end
        | Exit s => {| events := ev; final := w1; outcome := Exit s |}
        | Running => {| events := ev; final := w1; outcome := Running |}
        | Fault => {| events := ev; final := w1; outcome := Fault |}
        end
    end.

Notation "x <- m ;; k" := (bind m (fun x => k))
  (at level 61, m at next level, right associativity).
Notation "m ;; k" := (bind m (fun _ => k))
  (at level 61, right associativity).

Definition get : M world :=
  fun w => {| events := []; final := w; outcome := Ret w |}.

Definition modify (f : world -> world) : M unit :=
  fun w => {| events := []; final := f w; outcome := Ret tt |}.

Definition emit (e : event) : M unit :=
  fun w => {| events := [e]; final := w; outcome := Ret tt |}.

Definition emits (es : list event) : M unit :=
  fun w => {| events := es; final := w; outcome := Ret tt |}.

(** [exit(status)], and a return from [main]. *)
Definition exit_ {A} (status : exit_status) : M A :=
  fun w => {| events := [EvExit status]; final := w; outcome := Exit status |}.

Definition blocked {A} : M A :=
  fun w => {| events := []; final := w; outcome := Running |}.

Definition fault {A} : M A :=
  fun w => {| events := []; final := w; outcome := Fault |}.

Definition when (b : bool) (m : M unit) : M unit := if b then m else ret tt.

Definition ALOGE (m : message) : M unit := emit (EvLog LOG_ERROR m).
Definition ALOGI (m : message) : M unit := emit (EvLog LOG_INFO m).
Definition ALOGV (m : message) : M unit := emit (EvLog LOG_VERBOSE m).

(** A C condition: non-zero is true. *)
Definition nonzero (x : Z) : bool := negb (x =? 0).

(** *** Field updates *)

Definition set_rng_stats (s : rng_stats_t) (w : world) : world :=
  {| rng_stats := s; masterprocess := masterprocess w;
     am_daemon := am_daemon w; exitstatus := exitstatus w;
     daemon_lockfp := daemon_lockfp w; daemon_lockfd := daemon_lockfd w;
     kernel := kernel w; arguments := arguments w;
     gotsigterm := gotsigterm w; gotsigusr1 := gotsigusr1 w;
     os_pid := os_pid w; os_pidfile := os_pidfile w;
     os_locked := os_locked w |}.

Definition set_masterprocess (p : Z) (w : world) : world :=
  {| rng_stats := rng_stats w; masterprocess := p;
     am_daemon := am_daemon w; exitstatus := exitstatus w;
     daemon_lockfp := daemon_lockfp w; daemon_lockfd := daemon_lockfd w;
     kernel := kernel w; arguments := arguments w;
     gotsigterm := gotsigterm w; gotsigusr1 := gotsigusr1 w;
     os_pid := os_pid w; os_pidfile := os_pidfile w;
     os_locked := os_locked w |}.

Definition set_am_daemon (v : Z) (w : world) : world :=
  {| rng_stats := rng_stats w; masterprocess := masterprocess w;
     am_daemon := v; exitstatus := exitstatus w;
     daemon_lockfp := daemon_lockfp w; daemon_lockfd := daemon_lockfd w;
     kernel := kernel w; arguments := arguments w;
     gotsigterm := gotsigterm w; gotsigusr1 := gotsigusr1 w;
     os_pid := os_pid w; os_pidfile := os_pidfile w;
     os_locked := os_locked w |}.

Definition set_daemon_lockfp (fp : option FILE) (w : world) : world :=
  {| rng_stats := rng_stats w; masterprocess := masterprocess w;
     am_daemon := am_daemon w; exitstatus := exitstatus w;
     daemon_lockfp := fp; daemon_lockfd := daemon_lockfd w;
     kernel := kernel w; arguments := arguments w;
     gotsigterm := gotsigterm w; gotsigusr1 := gotsigusr1 w;
     os_pid := os_pid w; os_pidfile := os_pidfile w;
     os_locked := os_locked w |}.

Definition set_daemon_lockfd (fd : Z) (w : world) : world :=
  {| rng_stats := rng_stats w; masterprocess := masterprocess w;
     am_daemon := am_daemon w; exitstatus := exitstatus w;
     daemon_lockfp := daemon_lockfp w; daemon_lockfd := fd;
     kernel := kernel w; arguments := arguments w;
     gotsigterm := gotsigterm w; gotsigusr1 := gotsigusr1 w;
     os_pid := os_pid w; os_pidfile := os_pidfile w;
     os_locked := os_locked w |}.

Definition set_kernel (k : kernel_mode_t) (w : world) : world :=
  {| rng_stats := rng_stats w; masterprocess := masterprocess w;
     am_daemon := am_daemon w; exitstatus := exitstatus w;
     daemon_lockfp := daemon_lockfp w; daemon_lockfd := daemon_lockfd w;
     kernel := k; arguments := arguments w;
     gotsigterm := gotsigterm w; gotsigusr1 := gotsigusr1 w;
     os_pid := os_pid w; os_pidfile := os_pidfile w;
     os_locked := os_locked w |}.

Definition set_signals (term usr1 : Z) (w : world) : world :=
  {| rng_stats := rng_stats w; masterprocess := masterprocess w;
     am_daemon := am_daemon w; exitstatus := exitstatus w;
     daemon_lockfp := daemon_lockfp w; daemon_lockfd := daemon_lockfd w;
     kernel := kernel w; arguments := arguments w;
     gotsigterm := term; gotsigusr1 := usr1;
     os_pid := os_pid w; os_pidfile := os_pidfile w;
     os_locked := os_locked w |}.

Definition set_os_pid (p : Z) (w : world) : world :=
  {| rng_stats := rng_stats w; masterprocess := masterprocess w;
     am_daemon := am_daemon w; exitstatus := exitstatus w;
     daemon_lockfp := daemon_lockfp w; daemon_lockfd := daemon_lockfd w;
     kernel := kernel w; arguments := arguments w;
     gotsigterm := gotsigterm w; gotsigusr1 := gotsigusr1 w;
     os_pid := p; os_pidfile := os_pidfile w;
     os_locked := os_locked w |}.

Definition set_os_pidfile (c : string) (w : world) : world :=
  {| rng_stats := rng_stats w; masterprocess := masterprocess w;
     am_daemon := am_daemon w; exitstatus := exitstatus w;
     daemon_lockfp := daemon_lockfp w; daemon_lockfd := daemon_lockfd w;
     kernel := kernel w; arguments := arguments w;
     gotsigterm := gotsigterm w; gotsigusr1 := gotsigusr1 w;
     os_pid := os_pid w; os_pidfile := c;
     os_locked := os_locked w |}.

Definition set_os_locked (b : bool) (w : world) : world :=
  {| rng_stats := rng_stats w; masterprocess := masterprocess w;
     am_daemon := am_daemon w; exitstatus := exitstatus w;
     daemon_lockfp := daemon_lockfp w; daemon_lockfd := daemon_lockfd w;
     kernel := kernel w; arguments := arguments w;
     gotsigterm := gotsigterm w; gotsigusr1 := gotsigusr1 w;
     os_pid := os_pid w; os_pidfile := os_pidfile w;
     os_locked := b |}.

(** ** Daemon needs *)

(** [die]: a log line when the process went daemon, then [exit]. *)
Definition die {A} (status : exit_status) : M A :=
  w <- get ;;
  when (nonzero (am_daemon w)) (ALOGE (MsgDieStatus status)) ;;
  exit_ status.

(** *** stdio on [daemon_lockfp] *)

Definition flush_pending (fp : FILE) (disk : string) : FILE * string :=
  match f_pending fp with
  | Some (off, data) =>
      ({| f_fd := f_fd fp; f_pos := f_pos fp; f_pending := None |},
       pwrite disk off data)
  | None => (fp, disk)
  end.

(** The stream operations of [get_lock] act on the global [daemon_lockfp];
    on a NULL stream they fault. *)
Definition with_lockfp {A} (k : FILE -> M A) : M A :=
  w <- get ;;
  match daemon_lockfp w with
  | Some fp => k fp
  | None => fault
  end.

Definition store_stream (st : FILE * string) : M unit :=
  modify (fun w => set_os_pidfile (snd st) (set_daemon_lockfp (Some (fst st)) w)).

Definition fflush_lockfp : M unit :=
  with_lockfp (fun fp =>
    w <- get ;;
    emit EvFflush ;;
    store_stream (flush_pending fp (os_pidfile w))).

Definition rewind_lockfp : M unit :=
  with_lockfp (fun fp =>
    w <- get ;;
    emit EvRewind ;;
    let '(fp', disk) := flush_pending fp (os_pidfile w) in
    store_stream ({| f_fd := f_fd fp'; f_pos := 0; f_pending := None |}, disk)).

Definition fprintf_lockfp (s : string) : M unit :=
  with_lockfp (fun fp =>
    w <- get ;;
    emit (EvFprintf s) ;;
    let pending :=
      match f_pending fp with
      | Some (off, data) => (off, (data ++ s)%string)
      | None => (f_pos fp, s)
      end in
    store_stream ({| f_fd := f_fd fp; f_pos := f_pos fp + String.length s;
                     f_pending := Some pending |}, os_pidfile w)).

(** [fscanf(daemon_lockfp, "%d", &x)]: the conversion result, [None] when
    nothing was stored. *)
Definition fscanf_d_lockfp : M (option Z) :=
  with_lockfp (fun fp =>
    w <- get ;;
    emit EvFscanf ;;
    let '(fp', disk) := flush_pending fp (os_pidfile w) in
    let '(v, rest) := scan_d (drop (f_pos fp') disk) in
    store_stream ({| f_fd := f_fd fp';
                     f_pos := String.length disk - String.length rest;
                     f_pending := None |}, disk) ;;
    ret v).

Definition ftell_lockfp : M nat := with_lockfp (fun fp => ret (f_pos fp)).

Definition fileno_lockfp : M Z := with_lockfp (fun fp => ret (f_fd fp)).

Definition ftruncate (fd : Z) (len : nat) : M unit :=
  emit (EvFtruncate fd len) ;;
  modify (fun w => set_os_pidfile (truncate_to (os_pidfile w) len) w).

Definition getpid : M Z :=
  w <- get ;; emit EvGetpid ;; ret (os_pid w).

(** *** What the environment answers to [get_lock] *)

(** [e_open]: the value of [open] (-1 on failure); [e_fdopen]: whether
    [fdopen] gives a stream; [e_flock]: the outcomes of the successive
    calls of [flock], [None] for 0 and [Some e] for -1 with [errno = e]. *)
Record lock_env := {
  e_open : Z;
  e_fdopen : bool;
  e_flock : list (option errno_t)
}.

(** [do { r = flock(...); } while (r && (errno == EINTR));]
    The value is the outcome of the last call. *)
Fixpoint flock_loop (fd : Z) (answers : list (option errno_t))
  : M (option errno_t) :=
  match answers with
  | [] => blocked
  | r :: rest =>
      emit (EvFlock fd) ;;
      match r with
      | Some EINTR => flock_loop fd rest
      | _ => ret r
      end
  end.

(** Write our pid to our pidfile, and lock it. *)
Definition get_lock (pidfile_name : string) (e : lock_env) : M unit :=
  let otherpid := 0 in
  w <- get ;;
  match daemon_lockfp w with
  | None =>
      emit (EvOpen pidfile_name) ;;
      modify (set_daemon_lockfd (e_open e)) ;;
      (if e_open e =? -1 then
         ALOGE (MsgCantOpen pidfile_name) ;; die EXIT_USAGE
       else
         emit (EvFdopen (e_open e)) ;;
         if e_fdopen e then
           modify (set_daemon_lockfp
                     (Some {| f_fd := e_open e; f_pos := 0;
                              f_pending := None |}))
         else
           ALOGE (MsgCantOpen pidfile_name) ;; die EXIT_USAGE) ;;
      emit (EvFcntl (e_open e)) ;;
      r <- flock_loop (e_open e) (e_flock e) ;;
      match r with
      | Some err =>
          match err with
          | EWOULDBLOCK =>
              rewind_lockfp ;;
              v <- fscanf_d_lockfp ;;
              let otherpid := match v with Some p => p | None => otherpid end in
              ALOGE (MsgCantLockPid pidfile_name otherpid)
          | _ => ALOGE (MsgCantLock pidfile_name)
          end ;;
          die EXIT_USAGE
      | None => modify (set_os_locked true)
      end
  | Some _ => ret tt
  end ;;
  rewind_lockfp ;;
  pid <- getpid ;;
  fprintf_lockfp (pid_line pid) ;;
  fflush_lockfp ;;
  fd <- fileno_lockfp ;;
  len <- ftell_lockfp ;;
  ftruncate fd len.

(** ** Statistics, n is the number of rng buffers *)

Definition set_buffer_lowmark (v : Z) (s : rng_stats_t) : rng_stats_t :=
  {| bytes_received := bytes_received s;
     source_blockfill := source_blockfill s;
     fips_blockfill := fips_blockfill s;
     bad_fips_blocks := bad_fips_blocks s;
     good_fips_blocks := good_fips_blocks s;
     fips_failures := fips_failures s;
     bytes_sent := bytes_sent s;
     entropy_sent := entropy_sent s;
     sink_starved := sink_starved s;
     buffer_lowmark := v;
     sink_wait := sink_wait s |}.

(** [memset(&rng_stats, 0, sizeof(rng_stats))] *)
Definition zero_stats : rng_stats_t :=
  {| bytes_received := 0;
     source_blockfill := rng_stat_zero;
     fips_blockfill := rng_stat_zero;
     bad_fips_blocks := 0;
     good_fips_blocks := 0;
     fips_failures := repeat 0 N_FIPS_TESTS;
     bytes_sent := 0;
     entropy_sent := 0;
     sink_starved := 0;
     buffer_lowmark := 0;
     sink_wait := rng_stat_zero |}.

Definition init_rng_stats (n : Z) : M unit :=
  emit (EvSetStatPrefix "stats: ") ;;
  modify (set_rng_stats zero_stats) ;;
  (* one is always in use *)
  modify (fun w =>
    set_rng_stats
      (set_buffer_lowmark (wrap counter_t (wrap c_int (n - 1))) (rng_stats w))
      w) ;;
  emit (EvMutexInit group1_mutex) ;;
  emit (EvMutexInit group2_mutex) ;;
  emit (EvMutexInit group3_mutex).

(** The type in which [counter * 8] is computed: the counter's type after
    the integer promotions. *)
Definition promote (t : ctype) : ctype :=
  if bits t <? bits c_int then c_int else t.

Definition times8 (x : Z) : Z := wrap (promote counter_t) (x * 8).

Fixpoint for_each (js : list nat) (body : nat -> M unit) : M unit :=
  match js with
  | [] => ret tt
  | j :: rest => body j ;; for_each rest body
  end.

Definition dump_rng_stats : M unit :=
  emit (EvLock group1_mutex) ;;
  w <- get ;;
  ALOGV (MsgBitsReceived (fmt_d (times8 (bytes_received (rng_stats w))))) ;;
  emit (EvUnlock group1_mutex) ;;
  emit (EvLock group3_mutex) ;;
  w <- get ;;
  ALOGV (MsgBitsSent (fmt_d (times8 (bytes_sent (rng_stats w))))) ;;
  ALOGV (MsgEntropyAdded (fmt_d (entropy_sent (rng_stats w)))) ;;
  emit (EvUnlock group3_mutex) ;;
  emit (EvLock group2_mutex) ;;
  w <- get ;;
  ALOGV (MsgFipsSuccesses (fmt_d (good_fips_blocks (rng_stats w)))) ;;
  ALOGV (MsgFipsFailures (fmt_d (bad_fips_blocks (rng_stats w)))) ;;
  for_each (seq 0 N_FIPS_TESTS) (fun _ => ret tt) ;;
  emit (EvUnlock group2_mutex) ;;
  emit (EvLock group1_mutex) ;;
  emit (EvUnlock group1_mutex) ;;
  emit (EvLock group2_mutex) ;;
  emit (EvUnlock group2_mutex) ;;
  emit (EvLock group3_mutex) ;;
  emit (EvUnlock group3_mutex).

(** Modelled from the spec: the sink thread's update of [buffer_lowmark]
    ([rngd_threads.c] is not among the sources): the minimum observed
    count of ready (tested-good) buffers. *)
Definition observe_ready (count : Z) (s : rng_stats_t) : rng_stats_t :=
  set_buffer_lowmark (Z.min (buffer_lowmark s) count) s.

(** ** The main thread *)

(** One return of [sleep]: the seconds left, the signals whose handlers
    ran meanwhile, and what the worker threads did to the shared counters
    while the main thread slept. *)
Record wake := {
  remaining : Z;
  sigusr1 : bool;
  sigterm : bool;
  workers : rng_stats_t -> rng_stats_t
}.

(** Modelled from the spec: the handlers of [rngd_signals.c] (not among
    the sources) set the termination request flag and the dump-stats-now
    request flag. *)
Definition deliver_signals (k : wake) (w : world) : world :=
  set_signals (if sigterm k then 1 else gotsigterm w)
              (if sigusr1 k then 1 else gotsigusr1 w) w.

Definition c_uint : ctype := {| bits := 32; is_signed := false |}.

(** [sleep(secs)], returning as the environment's [k] says. *)
Definition sleep (secs : Z) (k : wake) : M Z :=
  emit (EvSleep (wrap c_uint secs)) ;;
  modify (fun w =>
    deliver_signals k (set_rng_stats (workers k (rng_stats w)) w)) ;;
  ret (wrap c_int (remaining k)).

(** The body of the wait loop; its value is the next [sleeptime]. *)
Definition wait_step (sleeptime : Z) (k : wake) : M Z :=
  sleeptime <- sleep sleeptime k ;;
  w <- get ;;
  if ((sleeptime =? 0) || nonzero (gotsigusr1 w) || nonzero (gotsigterm w))%bool
  then
    dump_rng_stats ;;
    modify (fun w => set_signals (gotsigterm w) 0 w) ;;
    ret RNGD_STAT_SLEEP_TIME
  else ret sleeptime.

(** [while (!gotsigterm) { ... }] against the recorded wakes; when they
    run out the thread is asleep. *)
Fixpoint main_loop (sleeptime : Z) (wakes : list wake) : M unit :=
  w <- get ;;
  if nonzero (gotsigterm w) then ret tt
  else
    match wakes with
    | [] => emit (EvSleep (wrap c_uint sleeptime)) ;; blocked
    | k :: rest =>
        sleeptime <- wait_step sleeptime k ;;
        main_loop sleeptime rest
    end.

(** What the environment answers to [main].  [e_init_entropy_source] and
    [e_init_kernel_rng]: [None] when the device is there, [Some err] when
    it cannot be used, with the error of the failed operation. *)
Record env := {
  e_kernel_mode : kernel_mode_t;
  e_init_entropy_source : option errno_t;
  e_init_kernel_rng : option errno_t;
  e_lock : lock_env;
  e_daemon : option Z;
  e_init_rng_buffers : option exit_status;
  e_pthread_create : worker -> Z;
  e_wakes : list wake
}.

(** A function of another file of the daemon: it returns, or it ends the
    process itself with a status. *)
Definition external (ev : event) (o : option exit_status) : M unit :=
  emit ev ;;
  match o with
  | None => ret tt
  | Some s => exit_ s
  end.

(** Modelled from the spec: the initializers of the entropy source and
    of the kernel sink are in files that are not among the sources.  A
    device failure and a kernel-sink failure are fatal: each terminates
    the process with the operating-system/resource error code.  The log
    line of the cause is not among the format strings of [rngd.c] and is
    left out of the events. *)
Definition init_entropy_source (e : env) : M unit :=
  emit EvInitEntropySource ;;
  match e_init_entropy_source e with
  | None => ret tt
  | Some _ => exit_ EXIT_OSERR
  end.

Definition init_kernel_rng (e : env) : M unit :=
  emit EvInitKernelRng ;;
  match e_init_kernel_rng e with
  | None => ret tt
  | Some _ => exit_ EXIT_OSERR
  end.

Definition close_useless_fds : M unit :=
  emits (map (fun fd => EvClose (Z.of_nat fd)) (seq 3 247)).

Definition pthread_create (t : worker) (code : Z) : M Z :=
  emit (EvPthreadCreate t) ;; ret code.

(** Fire up worker threads.  The operands of [|] are all evaluated; they
    are taken from left to right. *)
Definition fire_up_worker_threads (e : env) : M unit :=
  r1 <- pthread_create do_rng_data_source_loop
          (e_pthread_create e do_rng_data_source_loop) ;;
  r2 <- pthread_create do_rng_fips_test_loop
          (e_pthread_create e do_rng_fips_test_loop) ;;
  r3 <- pthread_create do_rng_data_sink_loop
          (e_pthread_create e do_rng_data_sink_loop) ;;
  when (nonzero (Z.lor (Z.lor r1 r2) r3))
    (ALOGE MsgNoThreads ;; die EXIT_OSERR).

(** [daemon(0, 0)]: on success the process goes on as the child, under a
    new process id; the lock on the open pidfile goes with it. *)
Definition daemonize (e : env) : M Z :=
  emit EvDaemon ;;
  match e_daemon e with
  | Some child => modify (set_os_pid child) ;; ret 0
  | None => ret (-1)
  end.

(** [main] up to the start-up message. *)
Definition startup (e : env) : M unit :=
  emit EvKernelMode ;;
  modify (set_kernel (e_kernel_mode e)) ;;
  w <- get ;;
  (* Make sure kernel is supported *)
  match kernel w with
  | KERNEL_UNSUPPORTED => ALOGE MsgUnsupportedKernel ;; die EXIT_OSERR
  | _ => ret tt
  end ;;
  (* close useless FDs we might have gotten somehow *)
  close_useless_fds ;;
  init_rng_stats (rng_buffers (arguments w)) ;;
  emit EvInitSighandlers ;;
  (* Init entropy source *)
  init_entropy_source e ;;
  (* Init entropy sink *)
  init_kernel_rng e ;;
  when (nonzero (daemon (arguments w)))
    ((* check if another rngd is running, create pidfile and lock it *)
     get_lock (pidfile_name (arguments w)) (e_lock e) ;;
     r <- daemonize e ;;
     (if r <? 0 then ALOGE MsgCantDaemonize ;; exit_ EXIT_OSERR else ret tt) ;;
     modify (set_am_daemon 1) ;;
     (* update pidfile *)
     get_lock (pidfile_name (arguments w)) (e_lock e)) ;;
  pid <- getpid ;;
  modify (set_masterprocess pid) ;;
  ALOGI MsgStartingUp.

(** post-fork initialization *)
Definition post_fork_initialization (e : env) : M unit :=
  w <- get ;;
  external (EvInitRngBuffers (rng_buffers (arguments w)))
           (e_init_rng_buffers e) ;;
  emit EvInitSighandlers.

(** The end of [main], after the wait loop. *)
Definition finish : M unit :=
  w <- get ;;
  match exitstatus w with
  | EXIT_SUCCESS => ALOGI MsgExiting
  | s => ALOGE (MsgExitingStatus s)
  end ;;
  exit_ (exitstatus w).

Definition main (e : env) : M unit :=
  startup e ;;
  post_fork_initialization e ;;
  fire_up_worker_threads e ;;
  (* Dump stats every hour, and at exit... *)
  main_loop RNGD_STAT_SLEEP_TIME (e_wakes e) ;;
  finish.

End Rngd.

Arguments events {ST A} r.
Arguments final {ST A} r.
Arguments outcome {ST A} r.

(** ** Sample instances and inputs *)

Definition c_uint64 : ctype := {| bits := 64; is_signed := false |}.

Definition sample_types : StatsTypes :=
  {| counter_t := c_uint64; rng_stat := unit; rng_stat_zero := tt |}.

(** The process right after [exec]: the initial values of the globals
    (the zero-initialized [kernel] is written by [main] before it is
    read), process id [pid], and a pidfile holding [disk]. *)
Definition boot {ST : StatsTypes} (pid : Z) (disk : string) : world := {|
  rng_stats := zero_stats;
  masterprocess := 0;
  am_daemon := 0;
  exitstatus := EXIT_SUCCESS;
  daemon_lockfp := None;
  daemon_lockfd := 0;
  kernel := KERNEL_UNSUPPORTED;
  arguments := default_arguments;
  gotsigterm := 0;
  gotsigusr1 := 0;
  os_pid := pid;
  os_pidfile := disk;
  os_locked := false
|}.

Definition busy_lock : lock_env :=
  {| e_open := 5; e_fdopen := true;
     e_flock := [Some EINTR; Some EWOULDBLOCK] |}.

Definition interrupted_lock : lock_env :=
  {| e_open := 5; e_fdopen := true; e_flock := [Some EINTR; None] |}.

Definition timer_wake : @wake sample_types :=
  {| remaining := 0; sigusr1 := false; sigterm := false;
     workers := fun s => s |}.

Definition term_wake : @wake sample_types :=
  {| remaining := 1200; sigusr1 := false; sigterm := true;
     workers := fun s => s |}.

(** A run on a supported kernel, with the lock answers [l], a successful
    [daemon()] (child 101), thread creation results [threads] and the
    wakes [wakes]. *)
Definition sample_env (k : kernel_mode_t) (l : lock_env)
           (threads : worker -> Z) (wakes : list (@wake sample_types))
  : @env sample_types :=
  {| e_kernel_mode := k;
     e_init_entropy_source := None;
     e_init_kernel_rng := None;
     e_lock := l;
     e_daemon := Some 101;
     e_init_rng_buffers := None;
     e_pthread_create := threads;
     e_wakes := wakes |}.

Definition with_bytes (received sent : Z) : @rng_stats_t sample_types :=
  {| bytes_received := received;
     source_blockfill := @rng_stat_zero sample_types;
     fips_blockfill := @rng_stat_zero sample_types;
     bad_fips_blocks := 0;
     good_fips_blocks := 0;
     fips_failures := repeat 0 N_FIPS_TESTS;
     bytes_sent := sent;
     entropy_sent := 0;
     sink_starved := 0;
     buffer_lowmark := 2;
     sink_wait := @rng_stat_zero sample_types |}.

(** ** Auxiliary definitions *)

(** The statistics lines of a dump, among the events of a run. *)
Definition is_stats_line (ev : event) : bool :=
  match ev with
  | EvLog _ (MsgBitsReceived _) | EvLog _ (MsgBitsSent _)
  | EvLog _ (MsgEntropyAdded _) | EvLog _ (MsgFipsSuccesses _)
  | EvLog _ (MsgFipsFailures _) => true
  | _ => false
  end.

Definition is_flock (ev : event) : bool :=
  match ev with EvFlock _ => true | _ => false end.

Definition is_pthread_create (ev : event) : bool :=
  match ev with EvPthreadCreate _ => true | _ => false end.

Definition is_sleep (ev : event) : bool :=
  match ev with EvSleep _ => true | _ => false end.

(** The outcome of the [flock] loop: the first answer that is not an
    interruption, and the number of calls made to get it. *)
Fixpoint flock_final (answers : list (option errno_t))
  : option (option errno_t) :=
  match answers with
  | [] => None
  | Some EINTR :: rest => flock_final rest
  | r :: _ => Some r
  end.

Fixpoint flock_calls (answers : list (option errno_t)) : nat :=
  match answers with
  | [] => 0
  | Some EINTR :: rest => S (flock_calls rest)
  | _ :: _ => 1
  end.

(** What happens to the counters between [init_rng_stats] and a later
    moment: the sink thread observes a count of ready buffers, or the
    main thread dumps the statistics. *)
Inductive stats_action := Observe (count : Z) | Dump.

Definition act {ST : StatsTypes} (w : world) (a : stats_action) : world :=
  match a with
  | Observe count => set_rng_stats (observe_ready count (rng_stats w)) w
  | Dump => final (dump_rng_stats w)
  end.

Fixpoint observed (acts : list stats_action) : list Z :=
  match acts with
  | [] => []
  | Observe count :: rest => count :: observed rest
  | Dump :: rest => observed rest
  end.

(** A wake of one of the three kinds the main loop waits for: the timer
    ran out, or a stats-dump or a termination signal was delivered. *)
Definition expected_wake {ST : StatsTypes} (k : wake) : Prop :=
  remaining k = 0 \/ sigusr1 k = true \/ sigterm k = true.

(** The events of one stats dump, as a function of the counters. *)
Definition dump_events {ST : StatsTypes} (s : rng_stats_t) : list event :=
  [ EvLock group1_mutex;
    EvLog LOG_VERBOSE (MsgBitsReceived (fmt_d (times8 (bytes_received s))));
    EvUnlock group1_mutex;
    EvLock group3_mutex;
    EvLog LOG_VERBOSE (MsgBitsSent (fmt_d (times8 (bytes_sent s))));
    EvLog LOG_VERBOSE (MsgEntropyAdded (fmt_d (entropy_sent s)));
    EvUnlock group3_mutex;
    EvLock group2_mutex;
    EvLog LOG_VERBOSE (MsgFipsSuccesses (fmt_d (good_fips_blocks s)));
    EvLog LOG_VERBOSE (MsgFipsFailures (fmt_d (bad_fips_blocks s)));
    EvUnlock group2_mutex;
    EvLock group1_mutex; EvUnlock group1_mutex;
    EvLock group2_mutex; EvUnlock group2_mutex;
    EvLock group3_mutex; EvUnlock group3_mutex ].

(** The events of [die status] in world [w]. *)
Definition die_events {ST : StatsTypes} (w : world) (status : exit_status)
  : list event :=
  (if nonzero (am_daemon w) then [EvLog LOG_ERROR (MsgDieStatus status)]
   else []) ++ [EvExit status].

(** How a first [get_lock] (no stream yet) ends, read off the
    environment's answers. *)
Definition lock_verdict (e : lock_env) : result unit :=
  if e_open e =? -1 then Exit EXIT_USAGE
  else if negb (e_fdopen e) then Exit EXIT_USAGE
  else match flock_final (e_flock e) with
       | None => Running
       | Some None => Ret tt
       | Some (Some _) => Exit EXIT_USAGE
       end.

(** The world as a wake leaves it: what the workers did to the counters,
    then the signal flags. *)
Definition after_sleep {ST : StatsTypes} (k : wake) (w : world) : world :=
  deliver_signals k (set_rng_stats (workers k (rng_stats w)) w).

(** The last log line of [main]. *)
Definition finish_line (status : exit_status) : event :=
  match status with
  | EXIT_SUCCESS => EvLog LOG_INFO MsgExiting
  | s => EvLog LOG_ERROR (MsgExitingStatus s)
  end.

(** Every event of [m], from any world, satisfies [P]. *)
Definition emits_only {ST : StatsTypes} (P : event -> Prop) {A} (m : M A)
  : Prop :=
  forall w, Forall P (events (m w)).

(** Events that start no thread and are no sleep of the wait loop. *)
Definition before_threads (ev : event) : Prop :=
  is_pthread_create ev = false /\ is_sleep ev = false.

Definition the_three_workers : list event :=
  [ EvPthreadCreate do_rng_data_source_loop;
    EvPthreadCreate do_rng_fips_test_loop;
    EvPthreadCreate do_rng_data_sink_loop ].

(** [main] gets as far as its first [get_lock]: the kernel is supported,
    the initializers of the source and of the sink return, the process is
    to go daemon and has no lockfile stream yet. *)
Definition reaches_lock {ST : StatsTypes} (e : env) (w : world) : Prop :=
  e_kernel_mode e <> KERNEL_UNSUPPORTED
  /\ e_init_entropy_source e = None
  /\ e_init_kernel_rng e = None
  /\ daemon (arguments w) <> 0
  /\ daemon_lockfp w = None.

(** The value of a run of decimal digits read after [acc], and inputs
    that do not go on with a digit. *)
Fixpoint eval_uint (d : Decimal.uint) (acc : Z) : Z :=
  match d with
  | Decimal.Nil => acc
  | Decimal.D0 l => eval_uint l (10 * acc + 0)
  | Decimal.D1 l => eval_uint l (10 * acc + 1)
  | Decimal.D2 l => eval_uint l (10 * acc + 2)
  | Decimal.D3 l => eval_uint l (10 * acc + 3)
  | Decimal.D4 l => eval_uint l (10 * acc + 4)
  | Decimal.D5 l => eval_uint l (10 * acc + 5)
  | Decimal.D6 l => eval_uint l (10 * acc + 6)
  | Decimal.D7 l => eval_uint l (10 * acc + 7)
  | Decimal.D8 l => eval_uint l (10 * acc + 8)
  | Decimal.D9 l => eval_uint l (10 * acc + 9)
  end.

Definition no_digit_ahead (s : string) : Prop :=
  match s with
  | String c _ => digit_of c = None
  | EmptyString => True
  end.

(** Events that write to the pidfile. *)
Definition is_pidfile_write (ev : event) : bool :=
  match ev with
  | EvFprintf _ | EvFtruncate _ _ => true
  | _ => false
  end.

(** [m] leaves the observation [f] of the world as it found it. *)
Definition keeps {ST : StatsTypes} {X : Type} (f : world -> X) {A}
           (m : M A) : Prop :=
  forall w, f (final (m w)) = f w.

(** What the start-up never changes: the exit status, the two signal
    flags and the configuration. *)
Definition startup_frame {ST : StatsTypes} (w : world)
  : exit_status * Z * Z * arguments_t :=
  (exitstatus w, gotsigterm w, gotsigusr1 w, arguments w).

(** What the wait loop never changes: everything but the counters and
    the two signal flags. *)
Definition loop_frame {ST : StatsTypes} (w : world)
  : Z * Z * exit_status * option FILE * Z * kernel_mode_t * arguments_t
    * Z * string * bool :=
  (masterprocess w, am_daemon w, exitstatus w, daemon_lockfp w,
   daemon_lockfd w, kernel w, arguments w, os_pid w, os_pidfile w,
   os_locked w).

(** The events of [main] before it looks at [arguments->daemon]: the
    kernel probe, the closing of descriptors 3 to 249, and the
    initializations. *)
Definition startup_prefix : list event :=
  EvKernelMode
  :: map (fun fd => EvClose (Z.of_nat fd)) (seq 3 247)
  ++ [ EvSetStatPrefix "stats: "; EvMutexInit group1_mutex;
       EvMutexInit group2_mutex; EvMutexInit group3_mutex;
       EvInitSighandlers; EvInitEntropySource; EvInitKernelRng ].

(** The events of a [get_lock] that only rewrites the pid line. *)
Definition pid_update_events (fd pid : Z) : list event :=
  [ EvRewind; EvGetpid; EvFprintf (pid_line pid); EvFflush;
    EvFtruncate fd (String.length (pid_line pid)) ].

Definition group_eqb (a b : stats_group) : bool :=
  match a, b with
  | group1_mutex, group1_mutex
  | group2_mutex, group2_mutex
  | group3_mutex, group3_mutex => true
  | _, _ => false
  end.

(** The discipline of the statistics mutexes, checked along a trace of
    the main thread: [held] is the mutex the thread holds.  A mutex is
    taken only when none is held and released only when it is the one
    held; the thread neither sleeps nor exits while it holds one; and a
    statistics line is logged only under a mutex. *)
Definition lock_step (held : option stats_group) (ev : event)
  : option (option stats_group) :=
  match ev, held with
  | EvLock g, None => Some (Some g)
  | EvLock _, Some _ => None
  | EvUnlock g, Some h => if group_eqb g h then Some None else None
  | EvUnlock _, None => None
  | EvSleep _, Some _ => None
  | EvExit _, Some _ => None
  | EvLog _ _, None => if is_stats_line ev then None else Some None
  | _, _ => Some held
  end.

Fixpoint locks_ok (held : option stats_group) (evs : list event) : bool :=
  match evs with
  | [] => match held with None => true | Some _ => false end
  | ev :: rest =>
      match lock_step held ev with
      | Some h => locks_ok h rest
      | None => false
      end
  end.

Definition disciplined {ST : StatsTypes} {A} (m : M A) : Prop :=
  forall w, locks_ok None (events (m w)) = true.

Definition is_close (ev : event) : bool :=
  match ev with EvClose _ => true | _ => false end.

Definition is_open (ev : event) : bool :=
  match ev with EvOpen _ | EvFdopen _ => true | _ => false end.

(** Before the pidfile is opened: no open, and only descriptors 3 to 249
    are closed. *)
Definition closing_phase (ev : event) : Prop :=
  is_open ev = false /\ forall fd, ev = EvClose fd -> 3 <= fd < 250.

(** The events of [m] split into a part in [P] followed by a part in
    [Q]. *)
Definition in_two_phases {ST : StatsTypes} (P Q : event -> Prop) {A}
           (m : M A) : Prop :=
  forall w, exists a b,
    events (m w) = a ++ b /\ Forall P a /\ Forall Q b.

(** A process started with [arguments->daemon] zero. *)
Definition foreground_arguments : arguments_t := {|
  rng_name := DEVHWRANDOM;
  random_name := DEVRANDOM;
  pidfile_name := PIDFILE;
  feed_interval := 5;
  random_step := 64;
  fill_watermark := -90;
  rng_timeout := 10;
  daemon := 0;
  rng_entropy := 1;
  rng_buffers := 3;
  rng_quality := 0;
  rng_driver := RNGD_ENTSOURCE_UNIXSTREAM
|}.

Definition boot_foreground {ST : StatsTypes} (pid : Z) (disk : string)
  : world := {|
  rng_stats := zero_stats;
  masterprocess := 0;
  am_daemon := 0;
  exitstatus := EXIT_SUCCESS;
  daemon_lockfp := None;
  daemon_lockfd := 0;
  kernel := KERNEL_UNSUPPORTED;
  arguments := foreground_arguments;
  gotsigterm := 0;
  gotsigusr1 := 0;
  os_pid := pid;
  os_pidfile := disk;
  os_locked := false
|}.

Definition fips_thread_fails (t : worker) : Z :=
  match t with
  | do_rng_fips_test_loop => 11
  | _ => 0
  end.

(** The wakes the loop lives to see: up to the first one that carries a
    termination signal. *)
Fixpoint consumed {ST : StatsTypes} (wakes : list wake) : list wake :=
  match wakes with
  | [] => []
  | k :: rest => if sigterm k then [k] else k :: consumed rest
  end.

(** A wake on which the loop dumps when no request was pending before
    the sleep. *)
Definition wake_due {ST : StatsTypes} (k : wake) : bool :=
  ((wrap c_int (remaining k) =? 0) || sigusr1 k || sigterm k)%bool.

Definition is_bits_received (ev : event) : bool :=
  match ev with EvLog _ (MsgBitsReceived _) => true | _ => false end.

(** A sleep cut short, 17 seconds before the end, by a signal that is
    neither a stats request nor a termination request. *)
Definition other_wake : @wake sample_types :=
  {| remaining := 17; sigusr1 := false; sigterm := false;
     workers := fun s => s |}.

(** Runs on a supported kernel in which the entropy source, or the kernel
    sink, cannot be opened. *)
Definition no_source_env : @env sample_types :=
  {| e_kernel_mode := KERNEL_supported 0;
     e_init_entropy_source := Some (E_other 2);
     e_init_kernel_rng := None;
     e_lock := interrupted_lock;
     e_daemon := Some 101;
     e_init_rng_buffers := None;
     e_pthread_create := fun _ => 0;
     e_wakes := [] |}.

Definition no_sink_env : @env sample_types :=
  {| e_kernel_mode := KERNEL_supported 0;
     e_init_entropy_source := None;
     e_init_kernel_rng := Some (E_other 2);
     e_lock := interrupted_lock;
     e_daemon := Some 101;
     e_init_rng_buffers := None;
     e_pthread_create := fun _ => 0;
     e_wakes := [] |}.

(** A sleep cut short by a stats-dump signal, during which the workers
    have received 1024 bytes and sent 512. *)
Definition usr1_wake : @wake sample_types :=
  {| remaining := 1200; sigusr1 := true; sigterm := false;
     workers := fun s =>
       {| bytes_received := 1024;
          source_blockfill := source_blockfill s;
          fips_blockfill := fips_blockfill s;
          bad_fips_blocks := bad_fips_blocks s;
          good_fips_blocks := good_fips_blocks s;
          fips_failures := fips_failures s;
          bytes_sent := 512;
          entropy_sent := entropy_sent s;
          sink_starved := sink_starved s;
          buffer_lowmark := buffer_lowmark s;
          sink_wait := sink_wait s |} |}.

(** * Properties *)

(** ** C integer arithmetic *)

Lemma wrap_id (t : ctype) (x : Z) : in_range t x -> wrap t x = x.
Proof.
  unfold wrap, in_range.
  destruct (Z_lt_le_dec 0 (bits t)) as [Hb | Hb].
  - assert (Hp : 2 ^ bits t = 2 * 2 ^ (bits t - 1)).
    { rewrite <- Z.pow_succ_r by lia. f_equal. lia. }
    assert (0 < 2 ^ (bits t - 1)) by (apply Z.pow_pos_nonneg; lia).
    destruct (is_signed t); intros Hr.
    + rewrite Z.mod_small by lia. lia.
    + apply Z.mod_small. lia.
  - assert (H1 : 2 ^ (bits t - 1) = 0) by (apply Z.pow_neg_r; lia).
    destruct (is_signed t); intros Hr; [lia |].
    destruct (Z.eq_dec (bits t) 0) as [E | E].
    + rewrite E in *. simpl in *. rewrite Z.mod_1_r. lia.
    + rewrite Z.pow_neg_r in Hr by lia. lia.
Qed.

Lemma wrap_congr (t : ctype) (x : Z) :
  0 < bits t -> (wrap t x) mod 2 ^ bits t = x mod 2 ^ bits t.
Proof.
  unfold wrap. intros Hb.
  assert (0 < 2 ^ bits t) by (apply Z.pow_pos_nonneg; lia).
  assert (Hp : 2 ^ bits t = 2 * 2 ^ (bits t - 1)).
  { rewrite <- Z.pow_succ_r by lia. f_equal. lia. }
  destruct (is_signed t).
  - rewrite Zminus_mod, Zmod_mod, <- Zminus_mod. f_equal. lia.
  - apply Zmod_mod.
Qed.

Lemma wrap_range (t : ctype) (x : Z) : 0 < bits t -> in_range t (wrap t x).
Proof.
  unfold wrap, in_range. intros Hb.
  assert (0 < 2 ^ bits t) by (apply Z.pow_pos_nonneg; lia).
  assert (Hp : 2 ^ bits t = 2 * 2 ^ (bits t - 1)).
  { rewrite <- Z.pow_succ_r by lia. f_equal. lia. }
  destruct (is_signed t).
  - pose proof (Z.mod_pos_bound (x + 2 ^ (bits t - 1)) (2 ^ bits t)). lia.
  - apply Z.mod_pos_bound. lia.
Qed.

Lemma mod_mod_pow (x a b : Z) :
  0 <= a <= b -> (x mod 2 ^ b) mod 2 ^ a = x mod 2 ^ a.
Proof.
  intros H. replace b with (a + (b - a)) by lia.
  rewrite Z.pow_add_r by lia.
  assert (0 < 2 ^ a) by (apply Z.pow_pos_nonneg; lia).
  assert (0 < 2 ^ (b - a)) by (apply Z.pow_pos_nonneg; lia).
  rewrite Z.rem_mul_r by lia.
  rewrite Z.mul_comm, Z.mod_add by lia. apply Zmod_mod.
Qed.

Lemma promote_wide (t : ctype) : 32 <= bits (promote t).
Proof.
  unfold promote. destruct (bits t <? bits c_int) eqn:E; simpl in *; lia.
Qed.

Lemma fmt_d_congr (t : ctype) (x : Z) :
  32 <= bits t -> fmt_d (wrap t x) mod 2 ^ 32 = x mod 2 ^ 32.
Proof.
  intros Hb. unfold fmt_d.
  change (2 ^ 32) with (2 ^ bits c_int).
  rewrite wrap_congr by (simpl; lia).
  rewrite <- (mod_mod_pow (wrap t x) (bits c_int) (bits t)) by (simpl; lia).
  rewrite wrap_congr by lia.
  apply mod_mod_pow. simpl; lia.
Qed.

Section Statistics.

Context {ST : StatsTypes}.

(** ** The statistics block *)

Lemma init_rng_stats_run (n : Z) (w : world) :
  init_rng_stats n w =
  {| events := [ EvSetStatPrefix "stats: "; EvMutexInit group1_mutex;
                 EvMutexInit group2_mutex; EvMutexInit group3_mutex ];
     final := set_rng_stats
                (set_buffer_lowmark (wrap counter_t (wrap c_int (n - 1)))
                   zero_stats) w;
     outcome := Ret tt |}.
Proof. reflexivity. Qed.

Lemma dump_rng_stats_run (w : world) :
  dump_rng_stats w =
  {| events := dump_events (rng_stats w); final := w; outcome := Ret tt |}.
Proof. reflexivity. Qed.

Lemma act_lowmark (w : world) (a : stats_action) :
  buffer_lowmark (rng_stats (act w a)) =
  match a with
  | Observe count => Z.min (buffer_lowmark (rng_stats w)) count
  | Dump => buffer_lowmark (rng_stats w)
  end.
Proof. destruct a; reflexivity. Qed.

Lemma lowmark_fold (acts : list stats_action) (w : world) :
  buffer_lowmark (rng_stats (fold_left act acts w)) =
  fold_left Z.min (observed acts) (buffer_lowmark (rng_stats w)).
Proof.
  revert w. induction acts as [| a acts IH]; intros w; [reflexivity |].
  simpl fold_left at 1. rewrite IH, act_lowmark.
  destruct a; reflexivity.
Qed.

Lemma fold_min_le (l : list Z) (a : Z) : fold_left Z.min l a <= a.
Proof.
  revert a. induction l as [| x l IH]; intros a; simpl; [lia |].
  specialize (IH (Z.min a x)). lia.
Qed.

Lemma init_lowmark (n : Z) (w : world) :
  in_range c_int (n - 1) -> in_range counter_t (n - 1) ->
  rng_stats (final (init_rng_stats n w)) =
  set_buffer_lowmark (n - 1) zero_stats.
Proof.
  intros Hi Hc. rewrite init_rng_stats_run. simpl.
  rewrite (wrap_id c_int) by assumption.
  rewrite (wrap_id counter_t) by assumption. reflexivity.
Qed.

(** C6: a stats dump only reads the counters.  [dump_rng_stats] always
    returns, and it leaves the whole world as it found it; in particular
    every field of the statistics block has the value it had before, also
    after any number of dumps. *)
Theorem dump_rng_stats_preserves_counters (w : world) (k : nat) :
  outcome (dump_rng_stats w) = Ret tt
  /\ final (dump_rng_stats w) = w
  /\ rng_stats (final (dump_rng_stats w)) = rng_stats w
  /\ rng_stats (fold_left act (repeat Dump k) w) = rng_stats w.
Proof.
  repeat split.
  induction k as [| k IH]; [reflexivity | exact IH].
Qed.

(** C8: [init_rng_stats n] zeroes every counter of the statistics block
    and sets [buffer_lowmark] to [n - 1] (for a buffer count [n] whose
    predecessor the [int] and the counter type can hold); as the mark is
    only ever lowered to an observed count, it never exceeds [n - 1]
    afterwards, whatever counts of ready buffers are observed. *)
Theorem init_rng_stats_zeroes_but_lowmark (n : Z) (w : world) :
  in_range c_int (n - 1) -> in_range counter_t (n - 1) ->
  let s := rng_stats (final (init_rng_stats n w)) in
  outcome (init_rng_stats n w) = Ret tt
  /\ s = set_buffer_lowmark (n - 1) zero_stats
  /\ bytes_received s = 0 /\ bytes_sent s = 0 /\ entropy_sent s = 0
  /\ good_fips_blocks s = 0 /\ bad_fips_blocks s = 0
  /\ fips_failures s = repeat 0 N_FIPS_TESTS
  /\ sink_starved s = 0
  /\ source_blockfill s = rng_stat_zero /\ fips_blockfill s = rng_stat_zero
  /\ sink_wait s = rng_stat_zero
  /\ buffer_lowmark s = n - 1
  /\ forall acts : list stats_action,
       buffer_lowmark
         (rng_stats (fold_left act acts (final (init_rng_stats n w))))
       <= n - 1.
Proof.
  intros Hi Hc s. subst s.
  split; [reflexivity |].
  rewrite (init_lowmark n w Hi Hc).
  repeat (split; [reflexivity |]).
  intros acts. rewrite lowmark_fold, (init_lowmark n w Hi Hc). simpl.
  apply fold_min_le.
Qed.

(** C4, as the code has it: a stats dump leaves [buffer_lowmark] as it
    is, so from [init_rng_stats n] on the mark is the minimum of [n - 1]
    and of every count of ready buffers observed since then, dumps or
    not. *)
Theorem buffer_lowmark_since_init (n : Z) (acts : list stats_action) (w : world) :
  in_range c_int (n - 1) -> in_range counter_t (n - 1) ->
  buffer_lowmark (rng_stats (act w Dump)) = buffer_lowmark (rng_stats w)
  /\ buffer_lowmark
       (rng_stats (fold_left act acts (final (init_rng_stats n w))))
     = fold_left Z.min (observed acts) (n - 1).
Proof.
  intros Hi Hc. split; [reflexivity |].
  rewrite lowmark_fold, (init_lowmark n w Hi Hc). reflexivity.
Qed.

(** C10: the two bit counts of a stats dump are the byte counters times 8
    as [%d] prints them: an [int] congruent to [bytes * 8] modulo 2^32,
    equal to it below 2^28 bytes and different from it (wrapped) from
    2^28 bytes on. *)
Theorem dump_bits_wrap (w : world) :
  let s := rng_stats w in
  let received := fmt_d (times8 (bytes_received s)) in
  let sent := fmt_d (times8 (bytes_sent s)) in
  In (EvLog LOG_VERBOSE (MsgBitsReceived received)) (events (dump_rng_stats w))
  /\ In (EvLog LOG_VERBOSE (MsgBitsSent sent)) (events (dump_rng_stats w))
  /\ (forall p v, In (EvLog p (MsgBitsReceived v)) (events (dump_rng_stats w))
                  -> v = received)
  /\ (forall p v, In (EvLog p (MsgBitsSent v)) (events (dump_rng_stats w))
                  -> v = sent)
  /\ received mod 2 ^ 32 = (bytes_received s * 8) mod 2 ^ 32
  /\ sent mod 2 ^ 32 = (bytes_sent s * 8) mod 2 ^ 32
  /\ - 2 ^ 31 <= received < 2 ^ 31
  /\ - 2 ^ 31 <= sent < 2 ^ 31
  /\ (0 <= bytes_received s < 2 ^ 28 -> received = bytes_received s * 8)
  /\ (0 <= bytes_sent s < 2 ^ 28 -> sent = bytes_sent s * 8)
  /\ (2 ^ 28 <= bytes_received s -> received <> bytes_received s * 8)
  /\ (2 ^ 28 <= bytes_sent s -> sent <> bytes_sent s * 8).
Proof.
  intros s received sent.
  assert (Hmod : forall b, fmt_d (times8 b) mod 2 ^ 32 = (b * 8) mod 2 ^ 32).
  { intros b. apply fmt_d_congr, promote_wide. }
  assert (Hrange : forall b, - 2 ^ 31 <= fmt_d (times8 b) < 2 ^ 31).
  { intros b. apply (wrap_range c_int). simpl; lia. }
  assert (Hsmall : forall b, 0 <= b < 2 ^ 28 -> fmt_d (times8 b) = b * 8).
  { intros b Hb. pose proof (Hmod b) as Hm. pose proof (Hrange b) as Hr.
    assert (E : fmt_d (times8 b) mod 2 ^ 32 = b * 8).
    { rewrite Hm. apply Z.mod_small. lia. }
    destruct (Z_lt_le_dec (fmt_d (times8 b)) 0) as [Hneg | Hpos].
    - replace (fmt_d (times8 b))
        with (fmt_d (times8 b) + 2 ^ 32 + (-1) * 2 ^ 32) in E by lia.
      rewrite Z.mod_add, Z.mod_small in E by lia. lia.
    - rewrite Z.mod_small in E by lia. exact E. }
  assert (Hbig : forall b, 2 ^ 28 <= b -> fmt_d (times8 b) <> b * 8).
  { intros b Hb. pose proof (Hrange b). lia. }
  rewrite dump_rng_stats_run. fold s.
  split; [simpl; tauto |]. split; [simpl; tauto |].
  split.
  { intros p v Hin. simpl in Hin.
    repeat (destruct Hin as [Hin | Hin]; [inversion Hin; subst; try reflexivity |]).
    contradiction. }
  split.
  { intros p v Hin. simpl in Hin.
    repeat (destruct Hin as [Hin | Hin]; [inversion Hin; subst; try reflexivity |]).
    contradiction. }
  split; [apply Hmod |]. split; [apply Hmod |].
  split; [apply Hrange |]. split; [apply Hrange |].
  split; [apply Hsmall |]. split; [apply Hsmall |].
  split; apply Hbig.
Qed.

End Statistics.

(** Symbolic execution of the monad's primitives at a world. *)
Ltac run_prims :=
  cbv beta iota zeta delta
    [bind ret get modify emit emits exit_ blocked fault when
     ALOGE ALOGI ALOGV with_lockfp store_stream fflush_lockfp rewind_lockfp
     fprintf_lockfp fscanf_d_lockfp ftell_lockfp fileno_lockfp ftruncate
     getpid flush_pending external init_entropy_source init_kernel_rng
     pthread_create daemonize
     close_useless_fds
     set_rng_stats set_masterprocess set_am_daemon set_daemon_lockfp
     set_daemon_lockfd set_kernel set_signals set_os_pid set_os_pidfile
     set_os_locked deliver_signals
     rng_stats masterprocess am_daemon exitstatus daemon_lockfp daemon_lockfd
     kernel arguments gotsigterm gotsigusr1 os_pid os_pidfile os_locked
     events final outcome fst snd f_fd f_pos f_pending
     e_open e_fdopen e_flock
     e_kernel_mode e_init_entropy_source e_init_kernel_rng e_lock e_daemon
     e_init_rng_buffers e_pthread_create e_wakes];
  cbn [app].

(** ** Reading back a pid line *)

Lemma scan_digits_uint (d : Decimal.uint) (acc : Z) (tail : string) :
  no_digit_ahead tail ->
  scan_digits acc (NilEmpty.string_of_uint d ++ tail)%string
  = (eval_uint d acc, tail).
Proof.
  intros Ht. revert acc.
  induction d; intros acc; try (simpl; apply IHd).
  simpl. destruct tail as [| c r]; [reflexivity |].
  simpl in *. rewrite Ht. reflexivity.
Qed.

Lemma eval_uint_pos (d : Decimal.uint) (acc : positive) :
  eval_uint d (Zpos acc) = Zpos (Pos.of_uint_acc d acc).
Proof.
  revert acc. induction d; intros acc; cbn [eval_uint Pos.of_uint_acc];
    try reflexivity; rewrite <- IHd; f_equal. all: lia.
Qed.

Lemma eval_uint_zero (d : Decimal.uint) :
  eval_uint d 0 = Z.of_N (Pos.of_uint d).
Proof.
  induction d; simpl; try reflexivity; try exact IHd;
    apply (eval_uint_pos d).
Qed.

Lemma scan_d_uint (d : Decimal.uint) (tail : string) :
  d <> Decimal.Nil -> no_digit_ahead tail ->
  scan_d (NilEmpty.string_of_uint d ++ tail)%string
  = (Some (wrap c_int (eval_uint d 0)), tail).
Proof.
  intros Hd Ht.
  destruct d; [contradiction | ..];
    unfold scan_d;
    match goal with
    | |- context [NilEmpty.string_of_uint ?x] =>
        pose proof (scan_digits_uint x 0 tail Ht) as Hs
    end;
    simpl in *; rewrite Hs; reflexivity.
Qed.

Lemma scan_pid_line (p : Z) (rest : string) :
  0 <= p -> in_range c_int p ->
  scan_d (pid_line p ++ rest)%string = (Some p, (newline ++ rest)%string).
Proof.
  intros Hp Hr. unfold pid_line.
  assert (Ht : no_digit_ahead (newline ++ rest)%string) by reflexivity.
  destruct p as [| q | q]; [reflexivity | | lia].
  assert (E : NilZero.string_of_int (Z.to_int (Zpos q))
              = NilEmpty.string_of_uint (Pos.to_uint q)).
  { simpl. unfold NilZero.string_of_uint.
    pose proof (DecimalPos.Unsigned.to_uint_nonnil q).
    destruct (Pos.to_uint q); [contradiction | reflexivity ..]. }
  rewrite E.
  assert (A : forall a b c : string, ((a ++ b) ++ c = a ++ (b ++ c))%string).
  { induction a; intros; simpl; [reflexivity | now rewrite IHa]. }
  rewrite A.
  rewrite scan_d_uint by (auto; apply DecimalPos.Unsigned.to_uint_nonnil).
  rewrite eval_uint_zero, DecimalPos.Unsigned.of_to.
  simpl Z.of_N. rewrite wrap_id by assumption. reflexivity.
Qed.


Section Lock.

Context {ST : StatsTypes}.

(** ** The pidfile lock *)

Lemma die_run {A} (status : exit_status) (w : world) :
  @die _ A status w =
  {| events := die_events w status; final := w; outcome := Exit status |}.
Proof.
  unfold die, die_events, bind, get, when.
  destruct (nonzero (am_daemon w)); reflexivity.
Qed.

Lemma take_length_app (s t : string) :
  take (String.length s) (s ++ t)%string = s.
Proof.
  induction s as [| c s IH]; simpl; [destruct t; reflexivity | now rewrite IH].
Qed.

Lemma length_app (s t : string) :
  String.length (s ++ t)%string = (String.length s + String.length t)%nat.
Proof. induction s as [| c s IH]; simpl; [reflexivity | now rewrite IH]. Qed.

Lemma app_empty_r (s : string) : (s ++ "")%string = s.
Proof. induction s as [| c s IH]; simpl; [reflexivity | now rewrite IH]. Qed.

Lemma write_then_truncate (line tail : string) :
  (take (String.length line) (line ++ tail)
   ++ pad (String.length line - String.length (line ++ tail)))%string = line.
Proof.
  rewrite take_length_app, length_app.
  replace (String.length line - _)%nat with 0%nat by lia.
  apply app_empty_r.
Qed.

Lemma truncate_pwrite (content line : string) :
  truncate_to (pwrite content 0 line) (String.length line) = line.
Proof. unfold truncate_to, pwrite. simpl. apply write_then_truncate. Qed.

Lemma flock_loop_run (fd : Z) (answers : list (option errno_t)) (w : world) :
  flock_loop fd answers w =
  {| events := repeat (EvFlock fd) (flock_calls answers);
     final := w;
     outcome := match flock_final answers with
                | Some r => Ret r
                | None => Running
                end |}.
Proof.
  induction answers as [| r rest IH]; [reflexivity |].
  destruct r as [[| |code]|]; try reflexivity.
  simpl. unfold bind at 1. simpl. rewrite IH. reflexivity.
Qed.

Lemma flock_final_shape (answers : list (option errno_t)) (r : option errno_t) :
  flock_final answers = Some r ->
  r <> Some EINTR
  /\ exists n rest,
       answers = repeat (Some EINTR) n ++ r :: rest
       /\ flock_calls answers = S n.
Proof.
  induction answers as [| a rest IH]; simpl; [discriminate |].
  destruct a as [[| |code]|].
  - intros H. destruct (IH H) as [Hne [n [rest' [E1 E2]]]].
    split; [exact Hne |]. exists (S n), rest'. simpl. now rewrite E1 at 1; rewrite E2.
  - intros H; inversion H; subst. split; [discriminate |]. now exists 0%nat, rest.
  - intros H; inversion H; subst. split; [discriminate |]. now exists 0%nat, rest.
  - intros H; inversion H; subst. split; [discriminate |]. now exists 0%nat, rest.
Qed.

(** C9: with the lockfile already open, [get_lock] neither opens nor
    locks anything: it rewinds the stream, prints the pid of the calling
    process, flushes and truncates, so that the pidfile holds exactly that
    pid line; the descriptor and the lock are as before. *)
Theorem get_lock_update (name : string) (e : lock_env) (w : world) (fp : FILE) :
  daemon_lockfp w = Some fp ->
  let r := get_lock name e w in
  let line := pid_line (os_pid w) in
  outcome r = Ret tt
  /\ events r = [ EvRewind; EvGetpid; EvFprintf line; EvFflush;
                  EvFtruncate (f_fd fp) (String.length line) ]
  /\ os_pidfile (final r) = line
  /\ daemon_lockfp (final r) =
       Some {| f_fd := f_fd fp; f_pos := String.length line;
               f_pending := None |}
  /\ daemon_lockfd (final r) = daemon_lockfd w
  /\ os_locked (final r) = os_locked w
  /\ os_pid (final r) = os_pid w.
Proof.
  intros H. destruct w; simpl in H; subst.
  destruct fp as [fd pos [[off data]|]]; unfold get_lock; run_prims;
    cbn [Nat.add]; rewrite truncate_pwrite; repeat split.
Qed.


Lemma get_lock_open_fails (name : string) (e : lock_env) (w : world) :
  daemon_lockfp w = None ->
  e_open e = -1 \/ e_fdopen e = false ->
  let w' := set_daemon_lockfd (e_open e) w in
  get_lock name e w =
  {| events := EvOpen name
               :: (if e_open e =? -1 then [] else [EvFdopen (e_open e)])
               ++ EvLog LOG_ERROR (MsgCantOpen name) :: die_events w EXIT_USAGE;
     final := w';
     outcome := Exit EXIT_USAGE |}.
Proof.
  intros H Hfail. destruct w, e as [eo ef el]; simpl in *; subst.
  unfold get_lock. run_prims.
  destruct (eo =? -1) eqn:E; run_prims.
  - rewrite die_run. run_prims. reflexivity.
  - destruct Hfail as [-> | ->]; [discriminate |]. run_prims.
    rewrite die_run. run_prims. reflexivity.
Qed.

Lemma get_lock_flock_fails (name : string) (e : lock_env) (w : world)
      (err : errno_t) :
  daemon_lockfp w = None ->
  e_open e <> -1 -> e_fdopen e = true ->
  flock_final (e_flock e) = Some (Some err) ->
  let r := get_lock name e w in
  outcome r = Exit EXIT_USAGE
  /\ events r =
       [EvOpen name; EvFdopen (e_open e); EvFcntl (e_open e)]
       ++ repeat (EvFlock (e_open e)) (flock_calls (e_flock e))
       ++ match err with
          | EWOULDBLOCK =>
              [ EvRewind; EvFscanf;
                EvLog LOG_ERROR
                  (MsgCantLockPid name
                     match fst (scan_d (os_pidfile w)) with
                     | Some p => p
                     | None => 0
                     end) ]
          | _ => [EvLog LOG_ERROR (MsgCantLock name)]
          end
       ++ die_events w EXIT_USAGE
  /\ os_locked (final r) = os_locked w.
Proof.
  intros H Ho Hf Hl. destruct w, e as [eo ef el]; simpl in *; subst.
  apply Z.eqb_neq in Ho.
  unfold get_lock. run_prims. rewrite Ho. run_prims.
  rewrite flock_loop_run, Hl. run_prims.
  destruct err as [| | code]; run_prims.
  - rewrite die_run. run_prims. repeat split.
  - change (drop 0 os_pidfile0) with os_pidfile0.
    destruct (scan_d os_pidfile0) as [v rest]. run_prims.
    rewrite die_run. run_prims. repeat split.
  - rewrite die_run. run_prims. repeat split.
Qed.

Lemma get_lock_acquires (name : string) (e : lock_env) (w : world) :
  daemon_lockfp w = None ->
  e_open e <> -1 -> e_fdopen e = true ->
  flock_final (e_flock e) = Some None ->
  let r := get_lock name e w in
  let line := pid_line (os_pid w) in
  outcome r = Ret tt
  /\ events r =
       [EvOpen name; EvFdopen (e_open e); EvFcntl (e_open e)]
       ++ repeat (EvFlock (e_open e)) (flock_calls (e_flock e))
       ++ [ EvRewind; EvGetpid; EvFprintf line; EvFflush;
            EvFtruncate (e_open e) (String.length line) ]
  /\ final r =
       set_os_pidfile line
         (set_os_locked true
            (set_daemon_lockfp
               (Some {| f_fd := e_open e; f_pos := String.length line;
                        f_pending := None |})
               (set_daemon_lockfd (e_open e) w))).
Proof.
  intros H Ho Hf Hl. destruct w, e as [eo ef el]; simpl in *; subst.
  apply Z.eqb_neq in Ho.
  unfold get_lock. run_prims. rewrite Ho. run_prims.
  rewrite flock_loop_run, Hl. run_prims.
  cbn [Nat.add]. rewrite app_nil_r, truncate_pwrite. repeat split.
Qed.

Lemma get_lock_outcome (name : string) (e : lock_env) (w : world) :
  daemon_lockfp w = None ->
  outcome (get_lock name e w) = lock_verdict e.
Proof.
  intros H. unfold lock_verdict.
  destruct (Z.eqb_spec (e_open e) (-1)) as [Ho | Ho].
  - rewrite (get_lock_open_fails name e w H (or_introl Ho)). reflexivity.
  - destruct (e_fdopen e) eqn:Hf; simpl.
    + destruct (flock_final (e_flock e)) as [[err |] |] eqn:Hl.
      * apply (get_lock_flock_fails name e w err H Ho Hf Hl).
      * apply (get_lock_acquires name e w H Ho Hf Hl).
      * destruct w, e as [eo ef el]; simpl in *; subst.
        apply Z.eqb_neq in Ho.
        unfold get_lock. run_prims. rewrite Ho. run_prims.
        rewrite flock_loop_run, Hl. reflexivity.
    + rewrite (get_lock_open_fails name e w H (or_intror Hf)). reflexivity.
Qed.

(** C1: a first [get_lock] that fails to get the lock -- the pidfile
    cannot be opened or created, or the [flock] loop ends with an error
    (calls interrupted by a signal are repeated by the loop and are not
    its result) -- logs the cause and ends the process with [EXIT_USAGE],
    and nothing is attempted after the failing call.  On [EWOULDBLOCK]
    the log line carries the number that [fscanf] reads from the pidfile
    (0 when there is none), which is the pid [p] when the pidfile starts
    with the line [get_lock] writes for [p]. *)
Theorem get_lock_failure_exits (name : string) (e : lock_env) (w : world) :
  daemon_lockfp w = None ->
  let r := get_lock name e w in
  (e_open e = -1 \/ e_fdopen e = false ->
     outcome r = Exit EXIT_USAGE
     /\ events r =
          EvOpen name
          :: (if e_open e =? -1 then [] else [EvFdopen (e_open e)])
          ++ EvLog LOG_ERROR (MsgCantOpen name) :: die_events w EXIT_USAGE)
  /\ (forall err : errno_t,
        e_open e <> -1 -> e_fdopen e = true ->
        flock_final (e_flock e) = Some (Some err) ->
        err <> EINTR
        /\ (exists n rest,
              e_flock e = repeat (Some EINTR) n ++ Some err :: rest
              /\ flock_calls (e_flock e) = S n)
        /\ outcome r = Exit EXIT_USAGE
        /\ events r =
             [EvOpen name; EvFdopen (e_open e); EvFcntl (e_open e)]
             ++ repeat (EvFlock (e_open e)) (flock_calls (e_flock e))
             ++ match err with
                | EWOULDBLOCK =>
                    [ EvRewind; EvFscanf;
                      EvLog LOG_ERROR
                        (MsgCantLockPid name
                           match fst (scan_d (os_pidfile w)) with
                           | Some p => p
                           | None => 0
                           end) ]
                | _ => [EvLog LOG_ERROR (MsgCantLock name)]
                end
             ++ die_events w EXIT_USAGE)
  /\ (forall (p : Z) (rest : string),
        0 <= p -> in_range c_int p ->
        os_pidfile w = (pid_line p ++ rest)%string ->
        fst (scan_d (os_pidfile w)) = Some p).
Proof.
  intros H r. split; [| split].
  - intros Hfail. subst r.
    rewrite (get_lock_open_fails name e w H Hfail). split; reflexivity.
  - intros err Ho Hf Hl.
    destruct (flock_final_shape _ _ Hl) as [Hne Hshape].
    destruct (get_lock_flock_fails name e w err H Ho Hf Hl) as [Hout [Hev _]].
    split; [congruence |]. split; [exact Hshape |]. split; assumption.
  - intros p rest Hp Hr ->. rewrite scan_pid_line by assumption. reflexivity.
Qed.

End Lock.

Ltac case_if :=
  match goal with |- context [if ?c then _ else _] => destruct c end.

Section Loop.

Context {ST : StatsTypes}.

(** ** The wait loop of the main thread *)

Lemma bind_ret_run {A B} (m : M A) (k : A -> M B) (w : world) (a : A) :
  outcome (m w) = Ret a ->
  bind m k w =
  {| events := events (m w) ++ events (k a (final (m w)));
     final := final (k a (final (m w)));
     outcome := outcome (k a (final (m w))) |}.
Proof.
  unfold bind. destruct (m w) as [ev w1 o]. cbn [outcome final events].
  intros ->. destruct (k a w1). reflexivity.
Qed.

Lemma bind_stop_run {A B} (m : M A) (k : A -> M B) (w : world) :
  (forall a, outcome (m w) <> Ret a) ->
  events (bind m k w) = events (m w)
  /\ final (bind m k w) = final (m w)
  /\ match outcome (m w) with
     | Ret _ => False
     | Exit s => outcome (bind m k w) = Exit s
     | Running => outcome (bind m k w) = Running
     | Fault => outcome (bind m k w) = Fault
     end.
Proof.
  unfold bind. destruct (m w) as [ev w1 o]. cbn [outcome final events].
  intros H. destruct o; cbn [outcome final events]; auto.
  destruct (H a eq_refl).
Qed.

Lemma wait_step_run (st : Z) (k : wake) (w : world) :
  wait_step st k w =
  let w1 := after_sleep k w in
  if ((wrap c_int (remaining k) =? 0) || nonzero (gotsigusr1 w1)
      || nonzero (gotsigterm w1))%bool
  then {| events := EvSleep (wrap c_uint st) :: dump_events (rng_stats w1);
          final := set_signals (gotsigterm w1) 0 w1;
          outcome := Ret RNGD_STAT_SLEEP_TIME |}
  else {| events := [EvSleep (wrap c_uint st)];
          final := w1;
          outcome := Ret (wrap c_int (remaining k)) |}.
Proof.
  unfold wait_step, sleep, after_sleep. run_prims.
  case_if; reflexivity.
Qed.

Lemma main_loop_nil (st : Z) (w : world) :
  main_loop st [] w =
  if nonzero (gotsigterm w)
  then {| events := []; final := w; outcome := Ret tt |}
  else {| events := [EvSleep (wrap c_uint st)]; final := w;
          outcome := Running |}.
Proof. simpl. run_prims. case_if; reflexivity. Qed.

Lemma main_loop_cons (st : Z) (k : wake) (rest : list wake) (w : world) :
  main_loop st (k :: rest) w =
  if nonzero (gotsigterm w)
  then {| events := []; final := w; outcome := Ret tt |}
  else bind (wait_step st k) (fun st' => main_loop st' rest) w.
Proof.
  simpl. unfold bind at 1, get. cbv beta iota.
  destruct (nonzero (gotsigterm w)); [reflexivity |].
  destruct (bind (wait_step st k) (fun st' => main_loop st' rest) w).
  reflexivity.
Qed.

Lemma expected_wake_dumps (k : wake) (w : world) :
  expected_wake k ->
  ((wrap c_int (remaining k) =? 0) || nonzero (gotsigusr1 (after_sleep k w))
   || nonzero (gotsigterm (after_sleep k w)))%bool = true.
Proof.
  intros [H | [H | H]]; unfold after_sleep, deliver_signals; run_prims;
    rewrite H.
  - reflexivity.
  - rewrite orb_true_r. reflexivity.
  - apply orb_true_r.
Qed.

Lemma nonzero_term_after (k : wake) (w : world) :
  nonzero (gotsigterm (after_sleep k w)) =
  (sigterm k || nonzero (gotsigterm w))%bool.
Proof.
  unfold after_sleep, deliver_signals. run_prims.
  destruct (sigterm k); reflexivity.
Qed.

Lemma wait_step_term (st : Z) (k : wake) (w : world) :
  exists st',
    outcome (wait_step st k w) = Ret st'
    /\ gotsigterm (final (wait_step st k w)) = gotsigterm (after_sleep k w)
    /\ rng_stats (final (wait_step st k w)) = rng_stats (after_sleep k w).
Proof.
  rewrite wait_step_run. cbv zeta.
  case_if; eexists; repeat split.
Qed.

Lemma main_loop_outcome (wakes : list wake) (st : Z) (w : world) :
  outcome (main_loop st wakes w) =
  if (nonzero (gotsigterm w) || existsb sigterm wakes)%bool
  then Ret tt else Running.
Proof.
  revert st w. induction wakes as [| k rest IH]; intros st w.
  - rewrite main_loop_nil. destruct (nonzero (gotsigterm w)); reflexivity.
  - rewrite main_loop_cons. destruct (nonzero (gotsigterm w)) eqn:E;
      [reflexivity |].
    destruct (wait_step_term st k w) as [st' [Ho [Ht _]]].
    rewrite (bind_ret_run _ _ _ _ Ho). cbn [outcome].
    rewrite IH, Ht, nonzero_term_after, E.
    cbn [existsb orb]. rewrite orb_false_r. reflexivity.
Qed.

Lemma main_loop_final_term (wakes : list wake) (st : Z) (w : world) :
  outcome (main_loop st wakes w) = Ret tt ->
  nonzero (gotsigterm (final (main_loop st wakes w))) = true.
Proof.
  revert st w. induction wakes as [| k rest IH]; intros st w.
  - rewrite main_loop_nil. destruct (nonzero (gotsigterm w)) eqn:E;
      cbn [outcome final]; [auto | discriminate].
  - rewrite main_loop_cons. destruct (nonzero (gotsigterm w)) eqn:E;
      cbn [outcome final]; [auto |].
    destruct (wait_step_term st k w) as [st' [Ho _]].
    rewrite (bind_ret_run _ _ _ _ Ho). cbn [outcome final]. apply IH.
Qed.

(** When the loop is entered with the termination flag clear and is
    left, the last thing it did was a stats dump of the counters as they
    are at the end. *)
Lemma main_loop_dump_last (wakes : list wake) (st : Z) (w : world) :
  nonzero (gotsigterm w) = false ->
  outcome (main_loop st wakes w) = Ret tt ->
  exists pre,
    events (main_loop st wakes w) =
    pre ++ dump_events (rng_stats (final (main_loop st wakes w))).
Proof.
  revert st w. induction wakes as [| k rest IH]; intros st w E.
  - rewrite main_loop_nil, E. discriminate.
  - rewrite main_loop_cons, E.
    destruct (wait_step_term st k w) as [st' [Ho [Ht Hs]]].
    rewrite (bind_ret_run _ _ _ _ Ho). cbn [outcome final events].
    destruct (nonzero (gotsigterm (final (wait_step st k w)))) eqn:E1.
    + (* the flag was raised during this sleep: the loop ends here *)
      intros _.
      assert (Hend : main_loop st' rest (final (wait_step st k w)) =
                     {| events := []; final := final (wait_step st k w);
                        outcome := Ret tt |}).
      { destruct rest; [rewrite main_loop_nil | rewrite main_loop_cons];
          rewrite E1; reflexivity. }
      rewrite Hend. cbn [events final]. rewrite app_nil_r.
      rewrite Ht in E1. revert E1 Hs. rewrite wait_step_run. cbv zeta.
      intros E1 Hs. rewrite E1, orb_true_r.
      cbn [events final]. exists [EvSleep (wrap c_uint st)]. reflexivity.
    + intros Hret. destruct (IH st' _ E1 Hret) as [pre Hpre].
      rewrite Hpre. exists (events (wait_step st k w) ++ pre).
      apply app_assoc.
Qed.

(** Under wakes of the three expected kinds, every sleep of the loop is
    for the full period. *)
Lemma main_loop_sleeps (wakes : list wake) (w : world) :
  Forall expected_wake wakes ->
  Forall (fun ev => is_sleep ev = true ->
                    ev = EvSleep (wrap c_uint RNGD_STAT_SLEEP_TIME))
         (events (main_loop RNGD_STAT_SLEEP_TIME wakes w)).
Proof.
  revert w. induction wakes as [| k rest IH]; intros w Hall.
  - rewrite main_loop_nil. case_if; cbn [events]; repeat constructor.
  - inversion Hall as [| k' rest' Hk Hrest]; subst.
    rewrite main_loop_cons. case_if; cbn [events]; [constructor |].
    assert (Ho : outcome (wait_step RNGD_STAT_SLEEP_TIME k w)
                 = Ret RNGD_STAT_SLEEP_TIME).
    { rewrite wait_step_run. cbv zeta.
      rewrite (expected_wake_dumps k w Hk). reflexivity. }
    rewrite (bind_ret_run _ _ _ _ Ho). cbn [events].
    apply Forall_app. split; [| apply IH; assumption].
    rewrite wait_step_run. cbv zeta.
    rewrite (expected_wake_dumps k w Hk). cbn [events].
    constructor; [reflexivity |].
    unfold dump_events. repeat constructor; discriminate.
Qed.

Lemma nonzero_true (x : Z) : nonzero x = true <-> x <> 0.
Proof.
  unfold nonzero. destruct (Z.eqb_spec x 0); simpl; split; intros; try lia;
    congruence.
Qed.

Lemma existsb_Exists {A} (f : A -> bool) (l : list A) :
  existsb f l = true <-> Exists (fun x => f x = true) l.
Proof.
  rewrite existsb_exists, Exists_exists. reflexivity.
Qed.

Lemma bind_assoc {A B C} (m : M A) (k : A -> M B) (h : B -> M C) (w : world) :
  bind (bind m k) h w = bind m (fun a => bind (k a) h) w.
Proof.
  unfold bind. destruct (m w) as [ev w1 [a | s | |]]; try reflexivity.
  destruct (k a w1) as [ev' w2 [b | s | |]]; try reflexivity.
  destruct (h b w2) as [ev'' w3 o]. rewrite app_assoc. reflexivity.
Qed.

Lemma finish_run (w : world) :
  finish w =
  {| events := [finish_line (exitstatus w); EvExit (exitstatus w)];
     final := w;
     outcome := Exit (exitstatus w) |}.
Proof.
  unfold finish, finish_line. run_prims.
  destruct w as [? ? ? [| |] ? ? ? ? ? ? ? ? ?]; reflexivity.
Qed.

(** C5: the wait loop starts with the period of 3600 seconds; on a wake
    of one of the three kinds (timer expired, stats-dump signal,
    termination signal) the loop body dumps the statistics -- after the
    sleep its events are exactly those of one dump of the counters as the
    wake left them, the five statistics lines among them -- sets the next
    sleep to the full period and clears the stats-dump flag, so that under
    such wakes every sleep is for 3600 seconds; and the loop is left
    exactly when the termination flag is set (otherwise the thread is
    asleep when the recorded wakes end). *)
Theorem main_loop_hourly (st : Z) (k : wake) (wakes : list wake) (w : world) :
  RNGD_STAT_SLEEP_TIME = 3600
  /\ (expected_wake k ->
      let r := wait_step st k w in
      outcome r = Ret RNGD_STAT_SLEEP_TIME
      /\ events r =
           EvSleep (wrap c_uint st)
           :: dump_events (rng_stats (after_sleep k w))
      /\ filter is_stats_line (events r) =
           filter is_stats_line (dump_events (rng_stats (after_sleep k w)))
      /\ List.length (filter is_stats_line (events r)) = 5%nat
      /\ gotsigusr1 (final r) = 0
      /\ gotsigterm (final r) = gotsigterm (after_sleep k w)
      /\ rng_stats (final r) = rng_stats (after_sleep k w))
  /\ (Forall expected_wake wakes ->
      Forall (fun ev => is_sleep ev = true -> ev = EvSleep 3600)
             (events (main_loop RNGD_STAT_SLEEP_TIME wakes w)))
  /\ (outcome (main_loop st wakes w) = Ret tt <->
      gotsigterm w <> 0 \/ Exists (fun k' => sigterm k' = true) wakes)
  /\ (outcome (main_loop st wakes w) = Ret tt \/
      outcome (main_loop st wakes w) = Running)
  /\ (outcome (main_loop st wakes w) = Ret tt ->
      gotsigterm (final (main_loop st wakes w)) <> 0).
Proof.
  split; [reflexivity |]. split.
  { intros Hk r. subst r. rewrite wait_step_run. cbv zeta.
    rewrite (expected_wake_dumps k w Hk). cbn [outcome events final].
    repeat split. }
  split; [apply main_loop_sleeps |].
  rewrite main_loop_outcome. split; [| split].
  - rewrite <- nonzero_true, <- existsb_Exists.
    destruct (nonzero (gotsigterm w)); destruct (existsb sigterm wakes);
      simpl; split; intros H; auto; try discriminate;
      destruct H; discriminate.
  - case_if; auto.
  - intros H. apply nonzero_true, main_loop_final_term.
    rewrite main_loop_outcome. exact H.
Qed.

(** When the wait loop is entered with the termination flag clear and
    the process then exits, the stats dump of the final counters comes
    right before the closing log line and the exit. *)
Lemma loop_exit_after_dump (st : Z) (wakes : list wake) (w : world)
      (s : exit_status) :
  gotsigterm w = 0 ->
  outcome (bind (main_loop st wakes) (fun _ => finish) w) = Exit s ->
  exists pre,
    events (bind (main_loop st wakes) (fun _ => finish) w) =
    pre
    ++ dump_events
         (rng_stats (final (bind (main_loop st wakes) (fun _ => finish) w)))
    ++ [finish_line s; EvExit s].
Proof.
  intros Hz.
  assert (E : nonzero (gotsigterm w) = false).
  { unfold nonzero. rewrite Hz. reflexivity. }
  pose proof (main_loop_outcome wakes st w) as Ho.
  destruct (nonzero (gotsigterm w) || existsb sigterm wakes)%bool.
  - rewrite (bind_ret_run _ _ _ _ Ho). rewrite finish_run.
    cbn [outcome events final]. intros Hs. inversion Hs; subst.
    destruct (main_loop_dump_last wakes st w E Ho) as [pre Hpre].
    exists pre. rewrite Hpre, app_assoc. reflexivity.
  - destruct (bind_stop_run (main_loop st wakes) (fun _ => finish) w)
      as [_ [_ H]]; [intros a; rewrite Ho; discriminate |].
    rewrite Ho in H. rewrite H. discriminate.
Qed.

End Loop.

Section Main.

Context {ST : StatsTypes}.

(** ** Events of the start-up *)

Section Emits.

Variable P : event -> Prop.

Lemma emits_ret {A} (a : A) : emits_only P (ret a).
Proof. intros w. constructor. Qed.

Lemma emits_get : emits_only P get.
Proof. intros w. constructor. Qed.

Lemma emits_modify (f : world -> world) : emits_only P (modify f).
Proof. intros w. constructor. Qed.

Lemma emits_fault {A} : emits_only P (@fault _ A).
Proof. intros w. constructor. Qed.

Lemma emits_blocked {A} : emits_only P (@blocked _ A).
Proof. intros w. constructor. Qed.

Lemma emits_emit (ev : event) : P ev -> emits_only P (emit ev).
Proof. intros H w. repeat constructor. exact H. Qed.

Lemma emits_emits (evs : list event) : Forall P evs -> emits_only P (emits evs).
Proof. intros H w. exact H. Qed.

Lemma emits_exit {A} (s : exit_status) :
  P (EvExit s) -> emits_only P (@exit_ _ A s).
Proof. intros H w. repeat constructor. exact H. Qed.

Lemma emits_bind {A B} (m : M A) (k : A -> M B) :
  emits_only P m -> (forall a, emits_only P (k a)) -> emits_only P (bind m k).
Proof.
  intros Hm Hk w. unfold bind. specialize (Hm w).
  destruct (m w) as [ev w1 [a | s | |]]; cbn [events] in *; try assumption.
  specialize (Hk a w1). destruct (k a w1) as [ev' w2 o']. cbn [events] in *.
  apply Forall_app. split; assumption.
Qed.

Lemma emits_when (b : bool) (m : M unit) :
  emits_only P m -> emits_only P (when b m).
Proof. intros H. destruct b; [exact H | apply emits_ret]. Qed.

End Emits.

Ltac emits_step :=
  first
    [ apply emits_bind; [| intros ?]
    | apply emits_ret | apply emits_get | apply emits_modify
    | apply emits_fault | apply emits_blocked
    | apply emits_when
    | apply emits_emit; split; reflexivity
    | apply emits_exit; split; reflexivity
    | match goal with
      | |- emits_only _ (match ?x with _ => _ end) => destruct x
      | |- emits_only _ (let '(_, _) := ?x in _) => destruct x
      end ].

Lemma die_before_threads {A} (s : exit_status) :
  emits_only before_threads (@die _ A s).
Proof. unfold die, ALOGE. repeat emits_step. Qed.

Lemma flock_loop_before_threads (fd : Z) (answers : list (option errno_t)) :
  emits_only before_threads (flock_loop fd answers).
Proof.
  induction answers as [| r rest IH]; simpl; [apply emits_blocked |].
  apply emits_bind; [apply emits_emit; split; reflexivity | intros _].
  destruct r as [[| |]|]; try apply emits_ret. exact IH.
Qed.

Lemma get_lock_before_threads (name : string) (e : lock_env) :
  emits_only before_threads (get_lock name e).
Proof.
  unfold get_lock, rewind_lockfp, fscanf_d_lockfp, fprintf_lockfp,
    fflush_lockfp, fileno_lockfp, ftell_lockfp, ftruncate, getpid,
    with_lockfp, store_stream, ALOGE.
  repeat first [ apply die_before_threads
               | apply flock_loop_before_threads
               | emits_step ].
Qed.

Lemma startup_before_threads (e : env) :
  emits_only before_threads (startup e).
Proof.
  unfold startup, init_rng_stats, close_useless_fds, external,
    init_entropy_source, init_kernel_rng, daemonize,
    getpid, ALOGE, ALOGI.
  repeat first [ apply die_before_threads
               | apply get_lock_before_threads
               | emits_step ].
  apply emits_emits, Forall_forall. intros ev Hin.
  apply in_map_iff in Hin. destruct Hin as [fd [<- _]]. split; reflexivity.
Qed.

Lemma dump_no_thread : emits_only (fun ev => is_pthread_create ev = false)
                                  dump_rng_stats.
Proof.
  intros w. rewrite dump_rng_stats_run. cbn [events].
  unfold dump_events. repeat constructor.
Qed.

Lemma main_loop_no_thread (wakes : list wake) (st : Z) :
  emits_only (fun ev => is_pthread_create ev = false) (main_loop st wakes).
Proof.
  revert st. induction wakes as [| k rest IH]; intros st w.
  - rewrite main_loop_nil. case_if; repeat constructor.
  - rewrite main_loop_cons. case_if; [constructor |].
    apply emits_bind; [| intros st'; apply IH].
    intros w'. rewrite wait_step_run. cbv zeta.
    case_if; cbn [events]; repeat constructor.
Qed.

Lemma finish_no_thread :
  emits_only (fun ev => is_pthread_create ev = false) finish.
Proof.
  intros w. rewrite finish_run. cbn [events].
  destruct (exitstatus w); repeat constructor.
Qed.

Lemma lor3_zero (a b c : Z) :
  Z.lor (Z.lor a b) c = 0 <-> a = 0 /\ b = 0 /\ c = 0.
Proof. rewrite !Z.lor_eq_0_iff. tauto. Qed.

Lemma fire_up_run (e : env) (w : world) :
  fire_up_worker_threads e w =
  if nonzero (Z.lor (Z.lor (e_pthread_create e do_rng_data_source_loop)
                           (e_pthread_create e do_rng_fips_test_loop))
                    (e_pthread_create e do_rng_data_sink_loop))
  then {| events := the_three_workers
                    ++ EvLog LOG_ERROR MsgNoThreads :: die_events w EXIT_OSERR;
          final := w; outcome := Exit EXIT_OSERR |}
  else {| events := the_three_workers; final := w; outcome := Ret tt |}.
Proof.
  unfold fire_up_worker_threads. run_prims.
  case_if; run_prims; [rewrite die_run |]; reflexivity.
Qed.

Lemma post_fork_run (e : env) (w : world) :
  post_fork_initialization e w =
  match e_init_rng_buffers e with
  | None =>
      {| events := [EvInitRngBuffers (rng_buffers (arguments w));
                    EvInitSighandlers];
         final := w; outcome := Ret tt |}
  | Some s =>
      {| events := [EvInitRngBuffers (rng_buffers (arguments w)); EvExit s];
         final := w; outcome := Exit s |}
  end.
Proof.
  unfold post_fork_initialization.
  destruct e as [? ? ? ? ? irb ? ?]. run_prims. destruct irb; reflexivity.
Qed.


Lemma main_split (e : env) (w : world) :
  main e w =
  bind (bind (startup e) (fun _ => post_fork_initialization e))
       (fun _ =>
          bind (fire_up_worker_threads e)
               (fun _ =>
                  bind (main_loop RNGD_STAT_SLEEP_TIME (e_wakes e))
                       (fun _ => finish))) w.
Proof. symmetry. apply bind_assoc. Qed.

Lemma thread_failure (e : env) :
  (exists t, e_pthread_create e t <> 0) <->
  nonzero (Z.lor (Z.lor (e_pthread_create e do_rng_data_source_loop)
                        (e_pthread_create e do_rng_fips_test_loop))
                 (e_pthread_create e do_rng_data_sink_loop)) = true.
Proof.
  rewrite nonzero_true, lor3_zero. split.
  - intros [t Ht] [H1 [H2 H3]]. destruct t; contradiction.
  - intros H.
    destruct (Z.eq_dec (e_pthread_create e do_rng_data_source_loop) 0);
      [| eexists; eassumption].
    destruct (Z.eq_dec (e_pthread_create e do_rng_fips_test_loop) 0);
      [| eexists; eassumption].
    destruct (Z.eq_dec (e_pthread_create e do_rng_data_sink_loop) 0);
      [| eexists; eassumption].
    tauto.
Qed.

Lemma threads_then_run {A} (e : env) (k : M A) (w : world) :
  bind (fire_up_worker_threads e) (fun _ => k) w =
  if nonzero (Z.lor (Z.lor (e_pthread_create e do_rng_data_source_loop)
                           (e_pthread_create e do_rng_fips_test_loop))
                    (e_pthread_create e do_rng_data_sink_loop))
  then {| events := the_three_workers
                    ++ EvLog LOG_ERROR MsgNoThreads :: die_events w EXIT_OSERR;
          final := w; outcome := Exit EXIT_OSERR |}
  else {| events := the_three_workers ++ events (k w);
          final := final (k w); outcome := outcome (k w) |}.
Proof.
  unfold bind. rewrite fire_up_run. case_if; [reflexivity |].
  destruct (k w); reflexivity.
Qed.

(** C7: everything [main] does before it creates threads starts no
    thread and does not sleep; when that part returns, it ends with the
    initialization of the buffer pool and of the signal handlers, and is
    followed by exactly the three thread creations (source, FIPS test,
    sink) and by nothing else that creates a thread; if one of the three
    creations fails the process logs it and exits with [EXIT_OSERR]
    without entering the wait loop, and otherwise the wait loop follows. *)
Theorem workers_started_before_loop (e : env) (w : world) :
  let r1 := bind (startup e) (fun _ => post_fork_initialization e) w in
  let loop := bind (main_loop RNGD_STAT_SLEEP_TIME (e_wakes e))
                   (fun _ => finish) in
  Forall before_threads (events r1)
  /\ (outcome r1 <> Ret tt -> events (main e w) = events r1)
  /\ (outcome r1 = Ret tt ->
      (exists pre n,
          events r1 = pre ++ [EvInitRngBuffers n; EvInitSighandlers])
      /\ exists rest,
          events (main e w) = events r1 ++ the_three_workers ++ rest
          /\ Forall (fun ev => is_pthread_create ev = false) rest
          /\ ((exists t, e_pthread_create e t <> 0) ->
              outcome (main e w) = Exit EXIT_OSERR
              /\ rest = EvLog LOG_ERROR MsgNoThreads
                        :: die_events (final r1) EXIT_OSERR)
          /\ ((forall t, e_pthread_create e t = 0) ->
              rest = events (loop (final r1))
              /\ outcome (main e w) = outcome (loop (final r1)))).
Proof.
  intros r1 loop. split; [| split].
  - apply emits_bind; [apply startup_before_threads | intros _].
    unfold post_fork_initialization, external.
    repeat emits_step.
  - intros Hne. rewrite main_split. fold r1.
    apply bind_stop_run. intros []. exact Hne.
  - intros Hret. split.
    + subst r1. revert Hret. unfold bind at 1 2.
      destruct (startup e w) as [ev w1 [[] | s | |]];
        cbn [outcome events]; try discriminate.
      rewrite post_fork_run.
      destruct (e_init_rng_buffers e); cbn [outcome events];
        [discriminate |].
      intros _. eexists; eexists; reflexivity.
    + rewrite main_split. fold r1.
      rewrite (bind_ret_run _ _ _ _ Hret). cbn [events outcome].
      rewrite threads_then_run. fold loop.
      destruct (nonzero _) eqn:Hnz; cbn [events outcome].
      * exists (EvLog LOG_ERROR MsgNoThreads
                :: die_events (final r1) EXIT_OSERR).
        split; [reflexivity |]. split.
        { unfold die_events. case_if; repeat constructor. }
        split; [auto |].
        intros Hall. apply thread_failure in Hnz.
        destruct Hnz as [t Ht]. destruct (Ht (Hall t)).
      * exists (events (loop (final r1))).
        split; [reflexivity |]. split.
        { apply (emits_bind _ _ _
            (main_loop_no_thread (e_wakes e) RNGD_STAT_SLEEP_TIME)
            (fun _ => finish_no_thread) (final r1)). }
        split; [| auto].
        intros Hex. apply thread_failure in Hex. congruence.
Qed.


(** ** Exit codes of the fatal conditions *)

Lemma main_unsupported_kernel (e : env) (w : world) :
  e_kernel_mode e = KERNEL_UNSUPPORTED ->
  main e w =
  {| events := EvKernelMode :: EvLog LOG_ERROR MsgUnsupportedKernel
               :: die_events w EXIT_OSERR;
     final := set_kernel KERNEL_UNSUPPORTED w;
     outcome := Exit EXIT_OSERR |}.
Proof.
  intros H. destruct w, e; simpl in H; subst.
  unfold main, startup. run_prims. rewrite die_run. run_prims. reflexivity.
Qed.

Lemma lock_verdict_exit (e : lock_env) (s : exit_status) :
  lock_verdict e = Exit s -> s = EXIT_USAGE.
Proof.
  unfold lock_verdict.
  destruct (e_open e =? -1); [congruence |].
  destruct (negb (e_fdopen e)); [congruence |].
  destruct (flock_final (e_flock e)) as [[err |] |]; congruence.
Qed.

Ltac run_get_lock Hv :=
  match goal with
  | |- context [get_lock ?n ?el ?w] =>
      let Ho := fresh "Ho" in
      let ev := fresh "ev" in
      let w1 := fresh "w" in
      let o := fresh "o" in
      pose proof (get_lock_outcome n el w eq_refl) as Ho;
      destruct (get_lock n el w) as [ev w1 o];
      cbn [outcome] in Ho; rewrite Hv in Ho; subst o
  end.

Lemma startup_lock_fails (e : env) (w : world) (s : exit_status) :
  reaches_lock e w ->
  lock_verdict (e_lock e) = Exit s ->
  outcome (startup e w) = Exit EXIT_USAGE.
Proof.
  intros [Hk [Hs [Hr [Hd Hl]]]] Hv.
  destruct w, e as [km ies ikr el ed irb pc wk]; simpl in *; subst.
  unfold startup. run_prims.
  destruct km as [| mode]; [congruence |]. run_prims.
  rewrite init_rng_stats_run. run_prims.
  apply nonzero_true in Hd. rewrite Hd. run_prims.
  run_get_lock Hv. run_prims.
  rewrite (lock_verdict_exit _ _ Hv). reflexivity.
Qed.

Lemma startup_daemon_fails (e : env) (w : world) :
  reaches_lock e w ->
  lock_verdict (e_lock e) = Ret tt ->
  e_daemon e = None ->
  outcome (startup e w) = Exit EXIT_OSERR.
Proof.
  intros [Hk [Hs [Hr [Hd Hl]]]] Hv He.
  destruct w, e as [km ies ikr el ed irb pc wk]; simpl in *; subst.
  unfold startup. run_prims.
  destruct km as [| mode]; [congruence |]. run_prims.
  rewrite init_rng_stats_run. run_prims.
  apply nonzero_true in Hd. rewrite Hd. run_prims.
  run_get_lock Hv. run_prims. reflexivity.
Qed.

Lemma startup_initializer_exits (e : env) (w : world) :
  e_kernel_mode e <> KERNEL_UNSUPPORTED ->
  e_init_entropy_source e <> None
  \/ (e_init_entropy_source e = None /\ e_init_kernel_rng e <> None) ->
  outcome (startup e w) = Exit EXIT_OSERR.
Proof.
  intros Hk Hs.
  destruct w, e as [km ies ikr el ed irb pc wk]; simpl in *.
  unfold startup. run_prims.
  destruct km as [| mode]; [congruence |]. run_prims.
  rewrite init_rng_stats_run. run_prims.
  destruct Hs as [Hs | [-> Hs]].
  - destruct ies as [err |]; [reflexivity | congruence].
  - destruct ikr as [err |]; [reflexivity | congruence].
Qed.

Lemma main_startup_exit (e : env) (w : world) (s : exit_status) :
  outcome (startup e w) = Exit s -> outcome (main e w) = Exit s.
Proof.
  intros H. unfold main.
  destruct (bind_stop_run (startup e)
              (fun _ => bind (post_fork_initialization e) (fun _ =>
                        bind (fire_up_worker_threads e) (fun _ =>
                        bind (main_loop RNGD_STAT_SLEEP_TIME (e_wakes e))
                             (fun _ => finish)))) w) as [_ [_ Ho]].
  - intros a. rewrite H. discriminate.
  - rewrite H in Ho. exact Ho.
Qed.

Lemma main_thread_failure (e : env) (w : world) :
  outcome (bind (startup e) (fun _ => post_fork_initialization e) w) = Ret tt ->
  (exists t, e_pthread_create e t <> 0) ->
  outcome (main e w) = Exit EXIT_OSERR.
Proof.
  intros Hret Hex. rewrite main_split.
  rewrite (bind_ret_run _ _ _ _ Hret). cbn [outcome].
  rewrite threads_then_run.
  apply thread_failure in Hex. rewrite Hex. reflexivity.
Qed.

(** C3, as the code has it: an unsupported host, a device failure and a
    kernel-sink failure each end the process with [EXIT_OSERR]; a failure
    to get the pidfile lock (the pidfile cannot be opened or created, or
    [flock] fails) ends it with [EXIT_USAGE], which is another code.  A
    failure to go daemon and a failure to start the worker threads end it
    with [EXIT_OSERR] as well. *)
Theorem fatal_exit_codes (e : env) (w : world) :
  (e_kernel_mode e = KERNEL_UNSUPPORTED ->
   outcome (main e w) = Exit EXIT_OSERR)
  /\ (e_kernel_mode e <> KERNEL_UNSUPPORTED ->
      e_init_entropy_source e <> None ->
      outcome (main e w) = Exit EXIT_OSERR)
  /\ (e_kernel_mode e <> KERNEL_UNSUPPORTED ->
      e_init_entropy_source e = None ->
      e_init_kernel_rng e <> None ->
      outcome (main e w) = Exit EXIT_OSERR)
  /\ (reaches_lock e w ->
      forall s, lock_verdict (e_lock e) = Exit s ->
      s = EXIT_USAGE
      /\ outcome (main e w) = Exit EXIT_USAGE
      /\ outcome (main e w) <> Exit EXIT_OSERR)
  /\ (reaches_lock e w -> lock_verdict (e_lock e) = Ret tt ->
      e_daemon e = None ->
      outcome (main e w) = Exit EXIT_OSERR)
  /\ (outcome (bind (startup e) (fun _ => post_fork_initialization e) w)
      = Ret tt ->
      (exists t, e_pthread_create e t <> 0) ->
      outcome (main e w) = Exit EXIT_OSERR).
Proof.
  split; [| split; [| split; [| split; [| split]]]].
  - intros H. rewrite (main_unsupported_kernel e w H). reflexivity.
  - intros Hk Hs. apply main_startup_exit.
    apply startup_initializer_exits; [exact Hk | left; exact Hs].
  - intros Hk Hs Hr. apply main_startup_exit.
    apply startup_initializer_exits; [exact Hk | right; split; assumption].
  - intros Hr s Hv. split; [exact (lock_verdict_exit _ _ Hv) |].
    rewrite (main_startup_exit e w _ (startup_lock_fails e w s Hr Hv)).
    split; [reflexivity | discriminate].
  - intros Hr Hv Hd. apply main_startup_exit.
    apply startup_daemon_fails; assumption.
  - apply main_thread_failure.
Qed.

(** ** Statistics at exit *)

(** C2, as the code has it: [die] logs the status (when the process is a
    daemon) and exits, without a stats dump; when the wait loop is entered
    with the termination flag clear and the process then exits, the stats
    dump of the final counters comes right before the closing log line
    and the exit, for the loop and so for [main]. *)
Theorem stats_dump_before_exit
        (status : exit_status) (st : Z) (wakes : list wake) (e : env)
        (w : world) :
  (outcome (@die _ unit status w) = Exit status
   /\ events (@die _ unit status w) = die_events w status
   /\ existsb is_stats_line (events (@die _ unit status w)) = false)
  /\ (gotsigterm w = 0 ->
      forall s,
        outcome (bind (main_loop st wakes) (fun _ => finish) w) = Exit s ->
        exists pre,
          events (bind (main_loop st wakes) (fun _ => finish) w) =
          pre
          ++ dump_events
               (rng_stats
                  (final (bind (main_loop st wakes) (fun _ => finish) w)))
          ++ [finish_line s; EvExit s])
  /\ (let r := bind (bind (startup e) (fun _ => post_fork_initialization e))
                    (fun _ => fire_up_worker_threads e) w in
      outcome r = Ret tt -> gotsigterm (final r) = 0 ->
      forall s,
        outcome (main e w) = Exit s ->
        exists pre,
          events (main e w) =
          pre ++ dump_events (rng_stats (final (main e w)))
              ++ [finish_line s; EvExit s]).
Proof.
  split; [| split].
  - rewrite die_run. repeat split.
    unfold die_events. cbn [events]. case_if; reflexivity.
  - intros Hz s. apply loop_exit_after_dump. exact Hz.
  - intros r Hret Hz s.
    assert (Hm : main e w =
                 bind (bind (bind (startup e)
                                  (fun _ => post_fork_initialization e))
                            (fun _ => fire_up_worker_threads e))
                      (fun _ => bind (main_loop RNGD_STAT_SLEEP_TIME
                                                (e_wakes e))
                                     (fun _ => finish)) w).
    { rewrite main_split. symmetry. apply bind_assoc. }
    rewrite Hm. rewrite (bind_ret_run _ _ _ _ Hret).
    cbn [outcome events final]. cbv beta. fold r. intros Hs.
    destruct (loop_exit_after_dump _ _ _ _ Hz Hs) as [pre Hpre].
    exists (events r ++ pre). rewrite Hpre, app_assoc. reflexivity.
Qed.

End Main.

(** * Further properties *)

Section LockMore.

Context {ST : StatsTypes}.

(** ** More on the pidfile lock *)

Lemma run_eta {A} (r : run A) :
  r = {| events := events r; final := final r; outcome := outcome r |}.
Proof. destruct r. reflexivity. Qed.

Lemma lock_verdict_ret (e : lock_env) :
  lock_verdict e = Ret tt ->
  e_open e <> -1 /\ e_fdopen e = true /\ flock_final (e_flock e) = Some None.
Proof.
  unfold lock_verdict.
  destruct (Z.eqb_spec (e_open e) (-1)); [discriminate |].
  destruct (e_fdopen e); simpl; [| discriminate].
  destruct (flock_final (e_flock e)) as [[err |] |]; try discriminate.
  auto.
Qed.

Lemma flock_final_none (answers : list (option errno_t)) :
  flock_final answers = None <-> Forall (eq (Some EINTR)) answers.
Proof.
  induction answers as [| a rest IH]; simpl.
  - split; auto.
  - destruct a as [[| | code] |]; split; intros H; try discriminate;
      try (inversion H; subst; discriminate).
    + constructor; [reflexivity | apply IH, H].
    + inversion H; subst. apply IH. assumption.
Qed.

(** The whole run of [get_lock] when the stream is already there. *)
Lemma get_lock_again (name : string) (e : lock_env) (w : world) (fp : FILE) :
  daemon_lockfp w = Some fp ->
  get_lock name e w =
  {| events := [ EvRewind; EvGetpid; EvFprintf (pid_line (os_pid w));
                 EvFflush;
                 EvFtruncate (f_fd fp) (String.length (pid_line (os_pid w))) ];
     final := set_os_pidfile (pid_line (os_pid w))
                (set_daemon_lockfp
                   (Some {| f_fd := f_fd fp;
                            f_pos := String.length (pid_line (os_pid w));
                            f_pending := None |}) w);
     outcome := Ret tt |}.
Proof.
  intros H. destruct w; simpl in H; subst.
  destruct fp as [fd pos [[off data]|]]; unfold get_lock; run_prims;
    cbn [Nat.add]; rewrite truncate_pwrite; reflexivity.
Qed.

Lemma die_events_no_write (w : world) (s : exit_status) :
  Forall (fun ev => is_pidfile_write ev = false) (die_events w s).
Proof. unfold die_events. case_if; repeat constructor. Qed.

Lemma open_failure_no_write (name : string) (e : lock_env) (w : world) :
  Forall (fun ev => is_pidfile_write ev = false)
         (EvOpen name
          :: (if e_open e =? -1 then [] else [EvFdopen (e_open e)])
          ++ EvLog LOG_ERROR (MsgCantOpen name) :: die_events w EXIT_USAGE).
Proof.
  constructor; [reflexivity |]. apply Forall_app. split.
  - case_if; repeat constructor.
  - constructor; [reflexivity | apply die_events_no_write].
Qed.

(** The world a failing first [get_lock] leaves. *)
Lemma get_lock_flock_fails_final (name : string) (e : lock_env) (w : world)
      (err : errno_t) :
  daemon_lockfp w = None ->
  e_open e <> -1 -> e_fdopen e = true ->
  flock_final (e_flock e) = Some (Some err) ->
  os_pidfile (final (get_lock name e w)) = os_pidfile w
  /\ os_locked (final (get_lock name e w)) = os_locked w
  /\ os_pid (final (get_lock name e w)) = os_pid w
  /\ Forall (fun ev => is_pidfile_write ev = false)
            (events (get_lock name e w)).
Proof.
  intros H Ho Hf Hl. destruct w, e as [eo ef el]; simpl in *; subst.
  apply Z.eqb_neq in Ho.
  assert (Hq : Forall (fun ev => is_pidfile_write ev = false)
                      (repeat (EvFlock eo) (flock_calls el))).
  { apply Forall_forall. intros ev Hin. apply repeat_spec in Hin.
    subst. reflexivity. }
  unfold get_lock. run_prims. rewrite Ho. run_prims.
  rewrite flock_loop_run, Hl. run_prims.
  destruct err as [| | code]; run_prims.
  - rewrite die_run. run_prims. repeat split.
    repeat (constructor; [reflexivity |]).
    apply Forall_app. split; [exact Hq |].
    repeat (constructor; [reflexivity |]).
    apply (die_events_no_write _ EXIT_USAGE).
  - change (drop 0 os_pidfile0) with os_pidfile0.
    destruct (scan_d os_pidfile0) as [v rest]. run_prims.
    rewrite die_run. run_prims. repeat split.
    repeat (constructor; [reflexivity |]).
    apply Forall_app. split; [exact Hq |].
    repeat (constructor; [reflexivity |]).
    apply (die_events_no_write _ EXIT_USAGE).
  - rewrite die_run. run_prims. repeat split.
    repeat (constructor; [reflexivity |]).
    apply Forall_app. split; [exact Hq |].
    repeat (constructor; [reflexivity |]).
    apply (die_events_no_write _ EXIT_USAGE).
Qed.

Lemma get_lock_returns_with_pid_line_aux
      (name : string) (e : lock_env) (w : world) :
  outcome (get_lock name e w) = Ret tt ->
  exists fd,
    daemon_lockfp (final (get_lock name e w)) =
    Some {| f_fd := fd; f_pos := String.length (pid_line (os_pid w));
            f_pending := None |}
    /\ os_pidfile (final (get_lock name e w)) = pid_line (os_pid w)
    /\ os_pid (final (get_lock name e w)) = os_pid w.
Proof.
  intros Hret.
  destruct (daemon_lockfp w) as [fp |] eqn:Hfp.
  - rewrite (get_lock_again name e w fp Hfp). cbn [final].
    exists (f_fd fp). destruct w; repeat split.
  - rewrite (get_lock_outcome name e w Hfp) in Hret.
    destruct (lock_verdict_ret e Hret) as [Ho [Hf Hl]].
    destruct (get_lock_acquires name e w Hfp Ho Hf Hl) as [_ [_ Hfin]].
    rewrite Hfin. exists (e_open e). destruct w; repeat split.
Qed.

(** X1: whenever [get_lock] returns, the pidfile holds exactly the pid
    line of the calling process, whatever it held before, and the stream
    stands at its end with nothing buffered; a first call (no stream yet)
    has also taken the lock and recorded the descriptor. *)
Theorem get_lock_returns_with_pid_line
        (name : string) (e : lock_env) (w : world) :
  outcome (get_lock name e w) = Ret tt ->
  let w' := final (get_lock name e w) in
  os_pidfile w' = pid_line (os_pid w)
  /\ os_pid w' = os_pid w
  /\ (exists fd,
        daemon_lockfp w' =
        Some {| f_fd := fd; f_pos := String.length (pid_line (os_pid w));
                f_pending := None |}
        /\ (daemon_lockfp w = None -> fd = e_open e))
  /\ (daemon_lockfp w = None ->
      os_locked w' = true /\ daemon_lockfd w' = e_open e)
  /\ (daemon_lockfp w <> None ->
      os_locked w' = os_locked w /\ daemon_lockfd w' = daemon_lockfd w).
Proof.
  intros Hret w'. subst w'.
  destruct (daemon_lockfp w) as [fp |] eqn:Hfp.
  - rewrite (get_lock_again name e w fp Hfp). cbn [final].
    destruct w; simpl in *; subst. run_prims.
    repeat split; try congruence.
    exists (f_fd fp). split; [reflexivity | discriminate].
  - rewrite (get_lock_outcome name e w Hfp) in Hret.
    destruct (lock_verdict_ret e Hret) as [Ho [Hf Hl]].
    destruct (get_lock_acquires name e w Hfp Ho Hf Hl) as [_ [_ Hfin]].
    rewrite Hfin. destruct w; simpl in *; subst. run_prims.
    repeat split; try congruence.
    exists (e_open e). split; reflexivity.
Qed.

(** X2: a first [get_lock] that fails ends the process with
    [EXIT_USAGE] and has written nothing: the pidfile of the running
    daemon and the lock are as they were. *)
Theorem get_lock_failure_keeps_pidfile
        (name : string) (e : lock_env) (w : world) (s : exit_status) :
  daemon_lockfp w = None ->
  outcome (get_lock name e w) = Exit s ->
  s = EXIT_USAGE
  /\ os_pidfile (final (get_lock name e w)) = os_pidfile w
  /\ os_locked (final (get_lock name e w)) = os_locked w
  /\ os_pid (final (get_lock name e w)) = os_pid w
  /\ Forall (fun ev => is_pidfile_write ev = false)
            (events (get_lock name e w)).
Proof.
  intros Hfp Hex.
  rewrite (get_lock_outcome name e w Hfp) in Hex.
  split; [exact (lock_verdict_exit e s Hex) |].
  unfold lock_verdict in Hex.
  destruct (Z.eqb_spec (e_open e) (-1)) as [Ho | Ho].
  - rewrite (get_lock_open_fails name e w Hfp (or_introl Ho)).
    cbn [final events].
    repeat split; try (destruct w; reflexivity).
    apply open_failure_no_write.
  - destruct (e_fdopen e) eqn:Hf; simpl in Hex.
    + destruct (flock_final (e_flock e)) as [[err |] |] eqn:Hl;
        try discriminate.
      apply (get_lock_flock_fails_final name e w err Hfp Ho Hf Hl).
    + rewrite (get_lock_open_fails name e w Hfp (or_intror Hf)).
      cbn [final events].
      repeat split; try (destruct w; reflexivity).
      apply open_failure_no_write.
Qed.

(** X3: [get_lock] never uses a NULL stream.  It returns, or ends the
    process with [EXIT_USAGE], or -- only on a first call whose [flock]
    is interrupted every time -- is still in the [flock] loop. *)
Theorem get_lock_never_faults (name : string) (e : lock_env) (w : world) :
  outcome (get_lock name e w) <> Fault
  /\ (outcome (get_lock name e w) = Ret tt
      \/ outcome (get_lock name e w) = Exit EXIT_USAGE
      \/ (outcome (get_lock name e w) = Running
          /\ daemon_lockfp w = None
          /\ Forall (eq (Some EINTR)) (e_flock e))).
Proof.
  destruct (daemon_lockfp w) as [fp |] eqn:Hfp.
  - rewrite (get_lock_again name e w fp Hfp). cbn [outcome].
    split; [discriminate | auto].
  - rewrite (get_lock_outcome name e w Hfp). unfold lock_verdict.
    destruct (e_open e =? -1); [split; [discriminate | auto] |].
    destruct (negb (e_fdopen e)); [split; [discriminate | auto] |].
    destruct (flock_final (e_flock e)) as [[err |] |] eqn:Hl;
      (split; [discriminate |]); auto.
    right; right. repeat split. apply flock_final_none, Hl.
Qed.

(** X4: the pid that a second instance logs as the conflicting one is
    the pid of the instance whose [get_lock] wrote the pidfile: what
    [fprintf] wrote with [%ld] is what [fscanf] reads back with [%d]. *)
Theorem conflicting_pid_is_holder
        (name : string) (eA eB : lock_env) (wA wB : world) :
  outcome (get_lock name eA wA) = Ret tt ->
  0 <= os_pid wA -> in_range c_int (os_pid wA) ->
  daemon_lockfp wB = None ->
  os_pidfile wB = os_pidfile (final (get_lock name eA wA)) ->
  e_open eB <> -1 -> e_fdopen eB = true ->
  flock_final (e_flock eB) = Some (Some EWOULDBLOCK) ->
  outcome (get_lock name eB wB) = Exit EXIT_USAGE
  /\ In (EvLog LOG_ERROR (MsgCantLockPid name (os_pid wA)))
        (events (get_lock name eB wB)).
Proof.
  intros HA Hp Hr HB Hdisk Ho Hf Hl.
  assert (Hline : os_pidfile wB = pid_line (os_pid wA)).
  { rewrite Hdisk.
    destruct (daemon_lockfp wA) as [fp |] eqn:Hfp.
    - rewrite (get_lock_again name eA wA fp Hfp). cbn [final].
      destruct wA; reflexivity.
    - rewrite (get_lock_outcome name eA wA Hfp) in HA.
      destruct (lock_verdict_ret eA HA) as [Ho' [Hf' Hl']].
      destruct (get_lock_acquires name eA wA Hfp Ho' Hf' Hl')
        as [_ [_ Hfin]].
      rewrite Hfin. destruct wA; reflexivity. }
  destruct (get_lock_flock_fails name eB wB EWOULDBLOCK HB Ho Hf Hl)
    as [Hout [Hev _]].
  split; [exact Hout |].
  rewrite Hev, Hline.
  replace (pid_line (os_pid wA)) with (pid_line (os_pid wA) ++ "")%string
    by apply app_empty_r.
  rewrite scan_pid_line by assumption. cbn [fst].
  apply in_or_app. right. apply in_or_app. right.
  apply in_or_app. left. simpl. auto.
Qed.

(** X5: a [get_lock] right after one that returned changes nothing: it
    only rewrites the same pid line, and leaves the world as it was. *)
Theorem get_lock_twice (name : string) (e e' : lock_env) (w : world) :
  outcome (get_lock name e w) = Ret tt ->
  let w1 := final (get_lock name e w) in
  outcome (get_lock name e' w1) = Ret tt
  /\ final (get_lock name e' w1) = w1
  /\ Forall (fun ev => is_flock ev = false) (events (get_lock name e' w1)).
Proof.
  intros Hret w1.
  destruct (get_lock_returns_with_pid_line_aux name e w Hret)
    as [fd [Hfp [Hdisk Hpid]]].
  fold w1 in Hfp, Hdisk, Hpid.
  rewrite (get_lock_again name e' w1 _ Hfp). cbn [outcome final events].
  split; [reflexivity |]. split; [| repeat constructor].
  rewrite Hpid. destruct w1; simpl in *. run_prims.
  rewrite Hfp, Hdisk. reflexivity.
Qed.

End LockMore.

Section MainMore.

Context {ST : StatsTypes}.

(** ** What the phases of [main] leave alone *)

Section Keeps.

Context {X : Type}.
Variable f : world -> X.

Lemma keeps_ret {A} (a : A) : keeps f (ret a).
Proof. intros w. reflexivity. Qed.

Lemma keeps_get : keeps f get.
Proof. intros w. reflexivity. Qed.

Lemma keeps_emit (ev : event) : keeps f (emit ev).
Proof. intros w. reflexivity. Qed.

Lemma keeps_emits (evs : list event) : keeps f (emits evs).
Proof. intros w. reflexivity. Qed.

Lemma keeps_exit {A} (s : exit_status) : keeps f (@exit_ _ A s).
Proof. intros w. reflexivity. Qed.

Lemma keeps_blocked {A} : keeps f (@blocked _ A).
Proof. intros w. reflexivity. Qed.

Lemma keeps_fault {A} : keeps f (@fault _ A).
Proof. intros w. reflexivity. Qed.

Lemma keeps_modify (g : world -> world) :
  (forall w, f (g w) = f w) -> keeps f (modify g).
Proof. intros H w. apply H. Qed.

Lemma keeps_bind {A B} (m : M A) (k : A -> M B) :
  keeps f m -> (forall a, keeps f (k a)) -> keeps f (bind m k).
Proof.
  intros Hm Hk w. unfold bind. specialize (Hm w).
  destruct (m w) as [ev w1 [a | s | |]]; cbn [final] in *; try assumption.
  specialize (Hk a w1). destruct (k a w1) as [ev' w2 o']. cbn [final] in *.
  congruence.
Qed.

Lemma keeps_when (b : bool) (m : M unit) : keeps f m -> keeps f (when b m).
Proof. intros H. destruct b; [exact H | apply keeps_ret]. Qed.

End Keeps.

Ltac keeps_step :=
  first
    [ apply keeps_bind; [| intros ?]
    | apply keeps_ret | apply keeps_get | apply keeps_emit
    | apply keeps_emits | apply keeps_exit
    | apply keeps_fault | apply keeps_blocked
    | apply keeps_when
    | apply keeps_modify; intros []; reflexivity
    | match goal with
      | |- keeps _ (match ?x with _ => _ end) => destruct x
      | |- keeps _ (let '(_, _) := ?x in _) => destruct x
      end ].

Lemma die_keeps {X A} (f : world -> X) (s : exit_status) :
  keeps f (@die _ A s).
Proof. unfold die, ALOGE. repeat keeps_step. Qed.

Lemma flock_loop_keeps {X} (f : world -> X) (fd : Z)
      (answers : list (option errno_t)) :
  keeps f (flock_loop fd answers).
Proof.
  induction answers as [| r rest IH]; simpl; [apply keeps_blocked |].
  apply keeps_bind; [apply keeps_emit | intros _].
  destruct r as [[| |]|]; try apply keeps_ret. exact IH.
Qed.

Lemma get_lock_keeps_frame (name : string) (e : lock_env) :
  keeps startup_frame (get_lock name e).
Proof.
  unfold get_lock, rewind_lockfp, fscanf_d_lockfp, fprintf_lockfp,
    fflush_lockfp, fileno_lockfp, ftell_lockfp, ftruncate, getpid,
    with_lockfp, store_stream, ALOGE.
  repeat first [ apply die_keeps | apply flock_loop_keeps | keeps_step ].
Qed.

Lemma startup_keeps_frame (e : env) : keeps startup_frame (startup e).
Proof.
  unfold startup, init_rng_stats, close_useless_fds, external,
    init_entropy_source, init_kernel_rng, daemonize,
    getpid, ALOGE, ALOGI.
  repeat first [ apply die_keeps | apply get_lock_keeps_frame | keeps_step ].
Qed.

Lemma before_loop_keeps_frame (e : env) :
  keeps startup_frame
        (bind (bind (startup e) (fun _ => post_fork_initialization e))
              (fun _ => fire_up_worker_threads e)).
Proof.
  apply keeps_bind; [apply keeps_bind; [apply startup_keeps_frame |] |];
    intros _.
  - unfold post_fork_initialization, external. repeat keeps_step.
  - unfold fire_up_worker_threads, pthread_create, ALOGE.
    repeat first [ apply die_keeps | keeps_step ].
Qed.

Lemma wait_step_keeps_frame (st : Z) (k : wake) :
  keeps loop_frame (wait_step st k).
Proof.
  intros w. rewrite wait_step_run. cbv zeta.
  case_if; destruct w; reflexivity.
Qed.

Lemma main_loop_keeps_frame (wakes : list wake) (st : Z) :
  keeps loop_frame (main_loop st wakes).
Proof.
  revert st. induction wakes as [| k rest IH]; intros st w.
  - rewrite main_loop_nil. case_if; reflexivity.
  - rewrite main_loop_cons. case_if; [reflexivity |].
    apply keeps_bind; [apply wait_step_keeps_frame | intros st'; apply IH].
Qed.

Lemma get_lock_fresh_run (name : string) (e : lock_env) (w : world) :
  daemon_lockfp w = None ->
  lock_verdict e = Ret tt ->
  get_lock name e w =
  {| events :=
       [EvOpen name; EvFdopen (e_open e); EvFcntl (e_open e)]
       ++ repeat (EvFlock (e_open e)) (flock_calls (e_flock e))
       ++ [ EvRewind; EvGetpid; EvFprintf (pid_line (os_pid w)); EvFflush;
            EvFtruncate (e_open e) (String.length (pid_line (os_pid w))) ];
     final :=
       set_os_pidfile (pid_line (os_pid w))
         (set_os_locked true
            (set_daemon_lockfp
               (Some {| f_fd := e_open e;
                        f_pos := String.length (pid_line (os_pid w));
                        f_pending := None |})
               (set_daemon_lockfd (e_open e) w)));
     outcome := Ret tt |}.
Proof.
  intros Hfp Hv. destruct (lock_verdict_ret e Hv) as [Ho [Hf Hl]].
  destruct (get_lock_acquires name e w Hfp Ho Hf Hl) as [H1 [H2 H3]].
  rewrite (run_eta (get_lock name e w)), H1, H2, H3. reflexivity.
Qed.

Lemma startup_daemon_facts (e : env) (w : world) (child : Z) :
  reaches_lock e w ->
  lock_verdict (e_lock e) = Ret tt ->
  e_daemon e = Some child ->
  let r := startup e w in
  let fd := e_open (e_lock e) in
  outcome r = Ret tt
  /\ events r =
       startup_prefix
       ++ [EvOpen (pidfile_name (arguments w)); EvFdopen fd; EvFcntl fd]
       ++ repeat (EvFlock fd) (flock_calls (e_flock (e_lock e)))
       ++ pid_update_events fd (os_pid w)
       ++ [EvDaemon]
       ++ pid_update_events fd child
       ++ [EvGetpid; EvLog LOG_INFO MsgStartingUp]
  /\ os_pidfile (final r) = pid_line child
  /\ masterprocess (final r) = child
  /\ os_pid (final r) = child
  /\ am_daemon (final r) = 1
  /\ os_locked (final r) = true
  /\ daemon_lockfd (final r) = fd.
Proof.
  intros [Hk [Hs [Hr [Hd Hl]]]] Hv He.
  destruct w, e as [km ies ikr el ed irb pc wk]; simpl in *; subst.
  unfold startup. run_prims.
  destruct km as [| mode]; [congruence |]. run_prims.
  rewrite init_rng_stats_run. run_prims.
  apply nonzero_true in Hd. rewrite Hd. run_prims.
  match goal with
  | |- context [get_lock ?n ?l ?w] =>
      rewrite (get_lock_fresh_run n l w eq_refl Hv)
  end.
  run_prims. change (0 <? 0) with false. run_prims.
  match goal with
  | |- context [get_lock ?n ?l ?w] =>
      rewrite (get_lock_again n l w _ eq_refl)
  end.
  run_prims. unfold startup_prefix, pid_update_events.
  cbn [app]. rewrite <- !app_assoc. cbn [app]. repeat split.
Qed.

Lemma startup_foreground_facts (e : env) (w : world) :
  e_kernel_mode e <> KERNEL_UNSUPPORTED ->
  e_init_entropy_source e = None ->
  e_init_kernel_rng e = None ->
  daemon (arguments w) = 0 ->
  let r := startup e w in
  outcome r = Ret tt
  /\ events r = startup_prefix ++ [EvGetpid; EvLog LOG_INFO MsgStartingUp]
  /\ masterprocess (final r) = os_pid w
  /\ am_daemon (final r) = am_daemon w
  /\ os_pidfile (final r) = os_pidfile w
  /\ os_locked (final r) = os_locked w
  /\ daemon_lockfp (final r) = daemon_lockfp w
  /\ os_pid (final r) = os_pid w.
Proof.
  intros Hk Hs Hr Hd.
  destruct w, e as [km ies ikr el ed irb pc wk]; simpl in *; subst.
  unfold startup. run_prims.
  destruct km as [| mode]; [congruence |]. run_prims.
  rewrite init_rng_stats_run. run_prims.
  rewrite Hd. change (nonzero 0) with false. run_prims.
  unfold startup_prefix.
  cbn [app]. rewrite <- ?app_assoc. cbn [app]. repeat split.
Qed.

(** X6: in daemon mode, when the lock is obtained and [daemon()]
    succeeds, the lock is taken and the parent's pid written before the
    fork; after it only the pid line is rewritten ([flock] is not called
    again), so that the pidfile ends up holding the daemon's pid, which is
    also [masterprocess]; [am_daemon] is set and the lock is held. *)
Theorem startup_daemon_mode (e : env) (w : world) (child : Z) :
  reaches_lock e w ->
  lock_verdict (e_lock e) = Ret tt ->
  e_daemon e = Some child ->
  let r := startup e w in
  let fd := e_open (e_lock e) in
  outcome r = Ret tt
  /\ events r =
       startup_prefix
       ++ [EvOpen (pidfile_name (arguments w)); EvFdopen fd; EvFcntl fd]
       ++ repeat (EvFlock fd) (flock_calls (e_flock (e_lock e)))
       ++ pid_update_events fd (os_pid w)
       ++ [EvDaemon]
       ++ pid_update_events fd child
       ++ [EvGetpid; EvLog LOG_INFO MsgStartingUp]
  /\ os_pidfile (final r) = pid_line child
  /\ masterprocess (final r) = child
  /\ os_pid (final r) = child
  /\ am_daemon (final r) = 1
  /\ os_locked (final r) = true
  /\ daemon_lockfd (final r) = fd.
Proof. exact (startup_daemon_facts e w child). Qed.

(** X7: in foreground mode ([arguments->daemon] zero) the start-up
    touches neither the pidfile nor the lock and does not fork:
    [masterprocess] is the pid of the process itself and [am_daemon]
    stays as it is. *)
Theorem startup_foreground (e : env) (w : world) :
  e_kernel_mode e <> KERNEL_UNSUPPORTED ->
  e_init_entropy_source e = None ->
  e_init_kernel_rng e = None ->
  daemon (arguments w) = 0 ->
  let r := startup e w in
  outcome r = Ret tt
  /\ events r = startup_prefix ++ [EvGetpid; EvLog LOG_INFO MsgStartingUp]
  /\ masterprocess (final r) = os_pid w
  /\ am_daemon (final r) = am_daemon w
  /\ os_pidfile (final r) = os_pidfile w
  /\ os_locked (final r) = os_locked w
  /\ daemon_lockfp (final r) = daemon_lockfp w
  /\ os_pid (final r) = os_pid w.
Proof. exact (startup_foreground_facts e w). Qed.

(** X8: once the start-up, the post-fork initialization and the thread
    creation have returned, [main] ends only on a termination request:
    it exits with [exitstatus], after the closing log line, if the
    termination flag is set at start or raised during one of the sleeps,
    and is asleep otherwise; the wait loop and the exit change nothing
    but the counters and the two signal flags. *)
Theorem main_runs_until_termination (e : env) (w : world) :
  let r := bind (bind (startup e) (fun _ => post_fork_initialization e))
                (fun _ => fire_up_worker_threads e) w in
  outcome r = Ret tt ->
  outcome (main e w) =
    (if (nonzero (gotsigterm w) || existsb sigterm (e_wakes e))%bool
     then Exit (exitstatus w) else Running)
  /\ (forall s, outcome (main e w) = Exit s ->
      exists pre,
        events (main e w) =
        pre ++ [finish_line (exitstatus w); EvExit (exitstatus w)])
  /\ loop_frame (final (main e w)) = loop_frame (final r).
Proof.
  intros r Hret.
  assert (Hm : main e w =
               bind (bind (bind (startup e)
                                (fun _ => post_fork_initialization e))
                          (fun _ => fire_up_worker_threads e))
                    (fun _ => bind (main_loop RNGD_STAT_SLEEP_TIME
                                              (e_wakes e))
                                   (fun _ => finish)) w).
  { rewrite main_split. symmetry. apply bind_assoc. }
  pose proof (before_loop_keeps_frame e w) as Hfr. fold r in Hfr.
  unfold startup_frame in Hfr.
  assert (Hex : exitstatus (final r) = exitstatus w)
    by (exact (f_equal (fun p => fst (fst (fst p))) Hfr)).
  assert (Hterm : gotsigterm (final r) = gotsigterm w)
    by (exact (f_equal (fun p => snd (fst (fst p))) Hfr)).
  rewrite Hm. rewrite (bind_ret_run _ _ _ _ Hret).
  cbn [outcome events final]. cbv beta. fold r.
  pose proof (main_loop_outcome (e_wakes e) RNGD_STAT_SLEEP_TIME (final r))
    as Ho.
  pose proof (main_loop_keeps_frame (e_wakes e) RNGD_STAT_SLEEP_TIME
                                    (final r)) as Hlf.
  rewrite Hterm in Ho.
  destruct (nonzero (gotsigterm w) || existsb sigterm (e_wakes e))%bool.
  - rewrite (bind_ret_run _ _ _ _ Ho). rewrite finish_run.
    cbn [outcome events final].
    assert (Hx : exitstatus
                   (final (main_loop RNGD_STAT_SLEEP_TIME (e_wakes e)
                                     (final r))) = exitstatus w).
    { rewrite <- Hex.
      exact (f_equal (fun p => snd (fst (fst (fst (fst (fst (fst (fst p))))))))
                     Hlf). }
    rewrite Hx. split; [reflexivity |]. split; [| exact Hlf].
    intros s _. eexists. rewrite app_assoc. reflexivity.
  - destruct (bind_stop_run (main_loop RNGD_STAT_SLEEP_TIME (e_wakes e))
                            (fun _ => finish) (final r))
      as [_ [Hfin Hout]]; [intros a; rewrite Ho; discriminate |].
    rewrite Ho in Hout. rewrite Hout, Hfin.
    split; [reflexivity |]. split; [discriminate | exact Hlf].
Qed.

(** ** The wait loop, wake by wake *)

(** X9: one turn of the wait loop dumps the statistics exactly when the
    sleep ran out, or a stats request or a termination request is
    pending (raised during this sleep or before it); then the next sleep
    is for the full period.  Otherwise -- the sleep was cut short by
    something else -- nothing is logged and the next sleep is for the
    seconds that were left.  Either way the stats-request flag is clear
    afterwards and a termination request is never dropped. *)
Theorem wait_step_dumps_iff (st : Z) (k : wake) (w : world) :
  let r := wait_step st k w in
  let due := ((wrap c_int (remaining k) =? 0)
              || (sigusr1 k || nonzero (gotsigusr1 w))
              || (sigterm k || nonzero (gotsigterm w)))%bool in
  existsb is_stats_line (events r) = due
  /\ outcome r = Ret (if due then RNGD_STAT_SLEEP_TIME
                      else wrap c_int (remaining k))
  /\ events r = EvSleep (wrap c_uint st)
                :: (if due then dump_events (workers k (rng_stats w))
                    else [])
  /\ nonzero (gotsigusr1 (final r)) = false
  /\ nonzero (gotsigterm (final r))
     = (sigterm k || nonzero (gotsigterm w))%bool
  /\ rng_stats (final r) = workers k (rng_stats w)
  /\ loop_frame (final r) = loop_frame w.
Proof.
  intros r due. subst r.
  assert (Hu : nonzero (gotsigusr1 (after_sleep k w))
               = (sigusr1 k || nonzero (gotsigusr1 w))%bool).
  { unfold after_sleep, deliver_signals. run_prims.
    destruct (sigusr1 k); reflexivity. }
  pose proof (nonzero_term_after k w) as Ht.
  pose proof (wait_step_keeps_frame st k w) as Hf.
  rewrite wait_step_run in *. cbv zeta in *.
  rewrite Hu, Ht in *. fold due in Hf |- *.
  assert (Hs : rng_stats (after_sleep k w) = workers k (rng_stats w)).
  { unfold after_sleep, deliver_signals. destruct w; reflexivity. }
  destruct due eqn:Hdue; cbn [events outcome final] in *.
  - rewrite Hs. repeat split; assumption.
  - apply orb_false_elim in Hdue. destruct Hdue as [Hdue Hterm].
    apply orb_false_elim in Hdue. destruct Hdue as [_ Husr].
    repeat split; try assumption.
    rewrite Hu. exact Husr.
Qed.

(** ** The statistics mutexes *)

Lemma locks_ok_app (l1 l2 : list event) (h : option stats_group) :
  locks_ok h l1 = true -> locks_ok h (l1 ++ l2) = locks_ok None l2.
Proof.
  revert h. induction l1 as [| ev l1 IH]; intros h; simpl.
  - destruct h; [discriminate | reflexivity].
  - destruct (lock_step h ev); [apply IH | discriminate].
Qed.

Lemma locks_ok_plain (l : list event) :
  Forall (fun ev => lock_step None ev = Some None) l ->
  locks_ok None l = true.
Proof.
  induction 1 as [| ev l Hev _ IH]; simpl; [reflexivity |].
  rewrite Hev. exact IH.
Qed.

Lemma disc_nil {A} (m : M A) :
  (forall w, events (m w) = []) -> disciplined m.
Proof. intros H w. rewrite H. reflexivity. Qed.

Lemma disc_emit (ev : event) :
  lock_step None ev = Some None -> disciplined (emit ev).
Proof. intros H w. cbn [emit events locks_ok]. rewrite H. reflexivity. Qed.

Lemma disc_exit {A} (s : exit_status) : disciplined (@exit_ _ A s).
Proof. intros w. reflexivity. Qed.

Lemma disc_bind {A B} (m : M A) (k : A -> M B) :
  disciplined m -> (forall a, disciplined (k a)) -> disciplined (bind m k).
Proof.
  intros Hm Hk w. unfold bind. specialize (Hm w).
  destruct (m w) as [ev w1 [a | s | |]]; cbn [events] in *; try assumption.
  specialize (Hk a w1). destruct (k a w1) as [ev' w2 o']. cbn [events] in *.
  rewrite (locks_ok_app _ _ _ Hm). exact Hk.
Qed.

Lemma disc_when (b : bool) (m : M unit) :
  disciplined m -> disciplined (when b m).
Proof. intros H. destruct b; [exact H | intros w; reflexivity]. Qed.

Ltac disc_step :=
  first
    [ apply disc_bind; [| intros ?]
    | apply disc_when
    | apply disc_exit
    | apply disc_emit; reflexivity
    | apply disc_nil; intros ?; reflexivity
    | match goal with
      | |- disciplined (match ?x with _ => _ end) => destruct x
      | |- disciplined (let '(_, _) := ?x in _) => destruct x
      end ].

Lemma die_disciplined {A} (s : exit_status) : disciplined (@die _ A s).
Proof. unfold die, ALOGE. repeat disc_step. Qed.

Lemma flock_loop_disciplined (fd : Z) (answers : list (option errno_t)) :
  disciplined (flock_loop fd answers).
Proof.
  induction answers as [| r rest IH]; simpl;
    [apply disc_nil; intros; reflexivity |].
  apply disc_bind; [apply disc_emit; reflexivity | intros _].
  destruct r as [[| |]|]; try (apply disc_nil; intros; reflexivity).
  exact IH.
Qed.

Lemma get_lock_disciplined (name : string) (e : lock_env) :
  disciplined (get_lock name e).
Proof.
  unfold get_lock, rewind_lockfp, fscanf_d_lockfp, fprintf_lockfp,
    fflush_lockfp, fileno_lockfp, ftell_lockfp, ftruncate, getpid,
    with_lockfp, store_stream, ALOGE.
  repeat first [ apply die_disciplined | apply flock_loop_disciplined
               | disc_step ].
Qed.

Lemma startup_disciplined (e : env) : disciplined (startup e).
Proof.
  unfold startup, init_rng_stats, external, init_entropy_source,
    init_kernel_rng, daemonize, getpid, ALOGE, ALOGI.
  repeat first [ apply die_disciplined | apply get_lock_disciplined
               | disc_step ].
  intros w. apply locks_ok_plain, Forall_forall. intros ev Hin.
  apply in_map_iff in Hin. destruct Hin as [fd [<- _]]. reflexivity.
Qed.

Lemma dump_disciplined : disciplined dump_rng_stats.
Proof. intros w. rewrite dump_rng_stats_run. reflexivity. Qed.

Lemma main_loop_disciplined (wakes : list wake) (st : Z) :
  disciplined (main_loop st wakes).
Proof.
  revert st. induction wakes as [| k rest IH]; intros st w.
  - rewrite main_loop_nil. case_if; reflexivity.
  - rewrite main_loop_cons. case_if; [reflexivity |].
    apply disc_bind; [| intros st'; apply IH].
    intros w'. rewrite wait_step_run. cbv zeta. case_if; reflexivity.
Qed.

(** X10: along every run of [main] the statistics mutexes are used in
    strict alternation: one at a time, each released before the next is
    taken; the counters are logged only under a mutex; and the main
    thread never sleeps or exits while it holds one. *)
Theorem main_mutex_discipline (e : env) (w : world) :
  locks_ok None (events (main e w)) = true
  /\ locks_ok None (events (dump_rng_stats w)) = true
  /\ (forall g h, locks_ok None [EvLock g; EvLock h] = false)
  /\ (forall g n, locks_ok None [EvLock g; EvSleep n; EvUnlock g] = false)
  /\ (forall p v, locks_ok None [EvLog p (MsgBitsReceived v)] = false).
Proof.
  split; [| split; [apply dump_disciplined | repeat split]].
  unfold main.
  apply disc_bind; [apply startup_disciplined | intros _].
  apply disc_bind; [| intros _].
  { unfold post_fork_initialization, external. repeat disc_step. }
  apply disc_bind; [| intros _].
  { unfold fire_up_worker_threads, pthread_create, ALOGE.
    repeat first [apply die_disciplined | disc_step]. }
  apply disc_bind; [apply main_loop_disciplined | intros _].
  intros w'. rewrite finish_run. cbn [events].
  destruct (exitstatus w'); reflexivity.
Qed.

(** ** The other lines of a dump *)

Lemma fmt_d_exact_iff (c : Z) : fmt_d c = c <-> in_range c_int c.
Proof.
  split.
  - intros H. rewrite <- H. apply (wrap_range c_int). simpl; lia.
  - apply (wrap_id c_int).
Qed.

(** X11: a dump logs five statistics lines, in the order bits received,
    bits sent, entropy added, FIPS successes, FIPS failures; the last
    three show the counter itself exactly when it fits an [int], and a
    value congruent to it modulo 2^32 otherwise. *)
Theorem dump_counts_as_int (w : world) :
  let s := rng_stats w in
  filter is_stats_line (events (dump_rng_stats w)) =
    [ EvLog LOG_VERBOSE (MsgBitsReceived (fmt_d (times8 (bytes_received s))));
      EvLog LOG_VERBOSE (MsgBitsSent (fmt_d (times8 (bytes_sent s))));
      EvLog LOG_VERBOSE (MsgEntropyAdded (fmt_d (entropy_sent s)));
      EvLog LOG_VERBOSE (MsgFipsSuccesses (fmt_d (good_fips_blocks s)));
      EvLog LOG_VERBOSE (MsgFipsFailures (fmt_d (bad_fips_blocks s))) ]
  /\ (fmt_d (entropy_sent s) = entropy_sent s
      <-> - 2 ^ 31 <= entropy_sent s < 2 ^ 31)
  /\ (fmt_d (good_fips_blocks s) = good_fips_blocks s
      <-> - 2 ^ 31 <= good_fips_blocks s < 2 ^ 31)
  /\ (fmt_d (bad_fips_blocks s) = bad_fips_blocks s
      <-> - 2 ^ 31 <= bad_fips_blocks s < 2 ^ 31)
  /\ fmt_d (entropy_sent s) mod 2 ^ 32 = entropy_sent s mod 2 ^ 32
  /\ fmt_d (good_fips_blocks s) mod 2 ^ 32 = good_fips_blocks s mod 2 ^ 32
  /\ fmt_d (bad_fips_blocks s) mod 2 ^ 32 = bad_fips_blocks s mod 2 ^ 32.
Proof.
  intros s.
  assert (Hc : forall c, fmt_d c mod 2 ^ 32 = c mod 2 ^ 32).
  { intros c. apply (wrap_congr c_int). simpl; lia. }
  split; [reflexivity |].
  split; [apply fmt_d_exact_iff |].
  split; [apply fmt_d_exact_iff |].
  split; [apply fmt_d_exact_iff |].
  split; [apply Hc |]. split; apply Hc.
Qed.

(** ** Descriptors *)

Section Phases.

Variables P Q : event -> Prop.

Lemma phases_left {A B} (m : M A) (k : A -> M B) :
  emits_only P m -> (forall a, in_two_phases P Q (k a)) ->
  in_two_phases P Q (bind m k).
Proof.
  intros Hm Hk w. unfold bind. specialize (Hm w).
  destruct (m w) as [ev w1 [a | s | |]]; cbn [events] in *;
    try solve [exists ev, []; rewrite app_nil_r; auto].
  destruct (Hk a w1) as [x [y [E [Hx Hy]]]].
  destruct (k a w1) as [ev' w2 o']. cbn [events] in *. subst ev'.
  exists (ev ++ x), y. rewrite app_assoc.
  split; [reflexivity |]. split; [apply Forall_app; auto | exact Hy].
Qed.

Lemma phases_right {A B} (m : M A) (k : A -> M B) :
  in_two_phases P Q m -> (forall a, emits_only Q (k a)) ->
  in_two_phases P Q (bind m k).
Proof.
  intros Hm Hk w. unfold bind. destruct (Hm w) as [x [y [E [Hx Hy]]]].
  destruct (m w) as [ev w1 [a | s | |]]; cbn [events] in *; subst ev;
    try solve [exists x, y; auto].
  specialize (Hk a w1). destruct (k a w1) as [ev' w2 o']. cbn [events] in *.
  exists x, (y ++ ev'). rewrite app_assoc.
  split; [reflexivity |]. split; [exact Hx | apply Forall_app; auto].
Qed.

Lemma phases_second {A} (m : M A) :
  emits_only Q m -> in_two_phases P Q m.
Proof. intros H w. exists [], (events (m w)). auto. Qed.

End Phases.

Ltac no_close_step :=
  first
    [ apply emits_bind; [| intros ?]
    | apply emits_ret | apply emits_get | apply emits_modify
    | apply emits_fault | apply emits_blocked
    | apply emits_when
    | apply emits_emit; reflexivity
    | apply emits_exit; reflexivity
    | match goal with
      | |- emits_only _ (match ?x with _ => _ end) => destruct x
      | |- emits_only _ (let '(_, _) := ?x in _) => destruct x
      end ].

Lemma die_no_close {A} (s : exit_status) :
  emits_only (fun ev => is_close ev = false) (@die _ A s).
Proof. unfold die, ALOGE. repeat no_close_step. Qed.

Lemma flock_loop_no_close (fd : Z) (answers : list (option errno_t)) :
  emits_only (fun ev => is_close ev = false) (flock_loop fd answers).
Proof.
  induction answers as [| r rest IH]; simpl; [apply emits_blocked |].
  apply emits_bind; [apply emits_emit; reflexivity | intros _].
  destruct r as [[| |]|]; try apply emits_ret. exact IH.
Qed.

Lemma get_lock_no_close (name : string) (e : lock_env) :
  emits_only (fun ev => is_close ev = false) (get_lock name e).
Proof.
  unfold get_lock, rewind_lockfp, fscanf_d_lockfp, fprintf_lockfp,
    fflush_lockfp, fileno_lockfp, ftell_lockfp, ftruncate, getpid,
    with_lockfp, store_stream, ALOGE.
  repeat first [ apply die_no_close | apply flock_loop_no_close
               | no_close_step ].
Qed.

Lemma main_loop_no_close (wakes : list wake) (st : Z) :
  emits_only (fun ev => is_close ev = false) (main_loop st wakes).
Proof.
  revert st. induction wakes as [| k rest IH]; intros st w.
  - rewrite main_loop_nil. case_if; repeat constructor.
  - rewrite main_loop_cons. case_if; [constructor |].
    apply emits_bind; [| intros st'; apply IH].
    intros w'. rewrite wait_step_run. cbv zeta.
    case_if; cbn [events]; repeat constructor.
Qed.

Lemma closing_phase_plain (ev : event) :
  is_open ev = false -> is_close ev = false -> closing_phase ev.
Proof.
  intros Ho Hc. split; [exact Ho |]. intros fd ->. discriminate.
Qed.

Lemma startup_two_phases (e : env) :
  in_two_phases closing_phase (fun ev => is_close ev = false) (startup e).
Proof.
  unfold startup.
  apply phases_left;
    [apply emits_emit, closing_phase_plain; reflexivity | intros _].
  apply phases_left; [apply emits_modify | intros _].
  apply phases_left; [apply emits_get | intros w].
  apply phases_left.
  { destruct (kernel w); [| apply emits_ret].
    apply emits_bind;
      [apply emits_emit, closing_phase_plain; reflexivity | intros _].
    unfold die, ALOGE.
    apply emits_bind; [apply emits_get | intros w'].
    apply emits_bind; [| intros _].
    - apply emits_when, emits_emit, closing_phase_plain; reflexivity.
    - apply emits_exit, closing_phase_plain; reflexivity. }
  intros _.
  apply phases_left.
  { apply emits_emits, Forall_forall. intros ev Hin.
    apply in_map_iff in Hin. destruct Hin as [n [<- Hn]].
    apply in_seq in Hn. split; [reflexivity |].
    intros fd H. inversion H. lia. }
  intros _. apply phases_second.
  unfold init_rng_stats, external, init_entropy_source, init_kernel_rng,
    daemonize, getpid, ALOGE, ALOGI.
  repeat first [ apply die_no_close | apply get_lock_no_close
               | no_close_step ].
Qed.

(** X12: [main] closes only descriptors 3 to 249 -- never the standard
    streams -- and does all its closing before it opens the pidfile:
    after the [open] nothing is closed, so the descriptor that carries
    the lock stays open. *)
Theorem main_closes_before_open (e : env) (w : world) :
  exists a b,
    events (main e w) = a ++ b
    /\ Forall (fun ev => is_open ev = false) a
    /\ (forall fd, In (EvClose fd) a -> 3 <= fd < 250)
    /\ Forall (fun ev => is_close ev = false) b.
Proof.
  assert (H : in_two_phases closing_phase (fun ev => is_close ev = false)
                            (main e)).
  { unfold main.
    apply phases_right; [apply startup_two_phases | intros _].
    apply emits_bind; [| intros _].
    { unfold post_fork_initialization, external. repeat no_close_step. }
    apply emits_bind; [| intros _].
    { unfold fire_up_worker_threads, pthread_create, ALOGE.
      repeat first [apply die_no_close | no_close_step]. }
    apply emits_bind; [apply main_loop_no_close | intros _].
    intros w'. rewrite finish_run. cbn [events].
    destruct (exitstatus w'); repeat constructor. }
  destruct (H w) as [a [b [E [Ha Hb]]]].
  exists a, b. split; [exact E |]. split; [| split; [| exact Hb]].
  - eapply Forall_impl; [| exact Ha]. intros ev [Ho _]. exact Ho.
  - intros fd Hin. rewrite Forall_forall in Ha.
    destruct (Ha _ Hin) as [_ Hr]. apply Hr. reflexivity.
Qed.

(** ** After the start-up *)

Lemma tail_keeps_loop_frame (e : env) :
  keeps loop_frame
        (bind (post_fork_initialization e) (fun _ =>
         bind (fire_up_worker_threads e) (fun _ =>
         bind (main_loop RNGD_STAT_SLEEP_TIME (e_wakes e))
              (fun _ => finish)))).
Proof.
  apply keeps_bind; [| intros _].
  { unfold post_fork_initialization, external. repeat keeps_step. }
  apply keeps_bind; [| intros _].
  { unfold fire_up_worker_threads, pthread_create, ALOGE.
    repeat first [apply die_keeps | keeps_step]. }
  apply keeps_bind; [apply main_loop_keeps_frame | intros _].
  intros w. rewrite finish_run. reflexivity.
Qed.

Lemma main_keeps_after_startup (e : env) (w : world) :
  outcome (startup e w) = Ret tt ->
  loop_frame (final (main e w)) = loop_frame (final (startup e w)).
Proof.
  intros Hret. unfold main.
  rewrite (bind_ret_run _ _ _ _ Hret). cbn [final].
  apply tail_keeps_loop_frame.
Qed.

Lemma main_thread_failure_events (e : env) (w : world) :
  outcome (startup e w) = Ret tt ->
  e_init_rng_buffers e = None ->
  (exists t, e_pthread_create e t <> 0) ->
  events (main e w) =
  (events (startup e w)
   ++ [EvInitRngBuffers (rng_buffers (arguments (final (startup e w))));
       EvInitSighandlers])
  ++ the_three_workers
  ++ EvLog LOG_ERROR MsgNoThreads
     :: die_events (final (startup e w)) EXIT_OSERR.
Proof.
  intros Hret Hirb Hex. unfold main.
  rewrite (bind_ret_run _ _ _ _ Hret). cbn [events].
  assert (Hp : outcome (post_fork_initialization e (final (startup e w)))
               = Ret tt).
  { rewrite post_fork_run, Hirb. reflexivity. }
  rewrite (bind_ret_run _ _ _ _ Hp). cbn [events].
  rewrite threads_then_run.
  apply thread_failure in Hex. rewrite Hex. cbn [events].
  rewrite post_fork_run, Hirb. cbn [events final].
  rewrite <- app_assoc. reflexivity.
Qed.

(** X13: when a worker thread cannot be created, a daemon logs the
    failure and then its exit status before it exits, while a process
    that stayed in the foreground logs the failure only; up to the three
    creations no thread is started and nothing sleeps. *)
Theorem thread_failure_is_logged (e : env) (w : world) :
  e_init_rng_buffers e = None ->
  (exists t, e_pthread_create e t <> 0) ->
  (reaches_lock e w -> lock_verdict (e_lock e) = Ret tt ->
   (exists child, e_daemon e = Some child) ->
   exists pre,
     Forall before_threads pre
     /\ events (main e w) =
        pre ++ the_three_workers
            ++ [ EvLog LOG_ERROR MsgNoThreads;
                 EvLog LOG_ERROR (MsgDieStatus EXIT_OSERR);
                 EvExit EXIT_OSERR ])
  /\ (e_kernel_mode e <> KERNEL_UNSUPPORTED ->
      e_init_entropy_source e = None -> e_init_kernel_rng e = None ->
      daemon (arguments w) = 0 -> am_daemon w = 0 ->
      exists pre,
        Forall before_threads pre
        /\ events (main e w) =
           pre ++ the_three_workers
               ++ [EvLog LOG_ERROR MsgNoThreads; EvExit EXIT_OSERR]).
Proof.
  intros Hirb Hex.
  assert (Hpre : Forall before_threads
                   (events (startup e w)
                    ++ [EvInitRngBuffers
                          (rng_buffers (arguments (final (startup e w))));
                        EvInitSighandlers])).
  { apply Forall_app. split; [apply startup_before_threads |].
    repeat constructor. }
  split.
  - intros Hr Hv [child Hd].
    destruct (startup_daemon_facts e w child Hr Hv Hd)
      as [Hret [_ [_ [_ [_ [Ham _]]]]]].
    eexists. split; [exact Hpre |].
    rewrite (main_thread_failure_events e w Hret Hirb Hex).
    unfold die_events, nonzero. rewrite Ham. reflexivity.
  - intros Hk Hs Hr Hd Ham.
    destruct (startup_foreground_facts e w Hk Hs Hr Hd)
      as [Hret [_ [_ [Ham' _]]]].
    eexists. split; [exact Hpre |].
    rewrite (main_thread_failure_events e w Hret Hirb Hex).
    unfold die_events, nonzero. rewrite Ham', Ham. reflexivity.
Qed.

(** X14: in daemon mode, once the lock is obtained and [daemon()] has
    succeeded, the pidfile holds the daemon's pid and the lock is held
    for the rest of the run, whatever the threads and the wakes do: the
    wait loop and the exit paths of [main] do not touch them. *)
Theorem daemon_pidfile_until_exit (e : env) (w : world) (child : Z) :
  reaches_lock e w ->
  lock_verdict (e_lock e) = Ret tt ->
  e_daemon e = Some child ->
  os_pidfile (final (main e w)) = pid_line child
  /\ os_locked (final (main e w)) = true
  /\ os_pid (final (main e w)) = child
  /\ masterprocess (final (main e w)) = child
  /\ am_daemon (final (main e w)) = 1.
Proof.
  intros Hr Hv Hd.
  destruct (startup_daemon_facts e w child Hr Hv Hd)
    as [Hret [_ [Hdisk [Hmp [Hpid [Ham [Hlock _]]]]]]].
  pose proof (main_keeps_after_startup e w Hret) as Hf.
  unfold loop_frame in Hf.
  split; [| split; [| split; [| split]]].
  - rewrite <- Hdisk. exact (f_equal (fun p => snd (fst p)) Hf).
  - rewrite <- Hlock. exact (f_equal (fun p => snd p) Hf).
  - rewrite <- Hpid. exact (f_equal (fun p => snd (fst (fst p))) Hf).
  - rewrite <- Hmp.
    exact (f_equal
             (fun p => fst (fst (fst (fst (fst (fst (fst (fst (fst p)))))))))
             Hf).
  - rewrite <- Ham.
    exact (f_equal
             (fun p => snd (fst (fst (fst (fst (fst (fst (fst (fst p)))))))))
             Hf).
Qed.

(** ** The pidfile is written only under the lock *)

Lemma closes_no_write (fds : list nat) :
  Forall (fun ev => is_pidfile_write ev = false)
         (map (fun fd => EvClose (Z.of_nat fd)) fds).
Proof.
  apply Forall_forall. intros ev Hin.
  apply in_map_iff in Hin. destruct Hin as [fd [<- _]]. reflexivity.
Qed.

Lemma flocks_no_write (fd : Z) (n : nat) :
  Forall (fun ev => is_pidfile_write ev = false) (repeat (EvFlock fd) n).
Proof.
  apply Forall_forall. intros ev Hin. apply repeat_spec in Hin.
  subst. reflexivity.
Qed.

Ltac no_write_list :=
  repeat first
    [ assumption
    | apply die_events_no_write
    | apply closes_no_write
    | apply flocks_no_write
    | apply Forall_nil
    | apply Forall_cons; [reflexivity |]
    | apply Forall_app; split ].

Lemma get_lock_not_acquired (name : string) (e : lock_env) (w : world) :
  daemon_lockfp w = None ->
  lock_verdict e <> Ret tt ->
  outcome (get_lock name e w) <> Ret tt
  /\ os_pidfile (final (get_lock name e w)) = os_pidfile w
  /\ os_locked (final (get_lock name e w)) = os_locked w
  /\ Forall (fun ev => is_pidfile_write ev = false)
            (events (get_lock name e w)).
Proof.
  intros Hfp Hv.
  split; [rewrite (get_lock_outcome name e w Hfp); exact Hv |].
  unfold lock_verdict in Hv.
  destruct (Z.eqb_spec (e_open e) (-1)) as [Ho | Ho].
  - rewrite (get_lock_open_fails name e w Hfp (or_introl Ho)).
    cbn [final events].
    repeat split; try (destruct w; reflexivity).
    apply open_failure_no_write.
  - destruct (e_fdopen e) eqn:Hf; simpl in Hv.
    + destruct (flock_final (e_flock e)) as [[err |] |] eqn:Hl.
      * destruct (get_lock_flock_fails_final name e w err Hfp Ho Hf Hl)
          as [H1 [H2 [_ H3]]]. repeat split; assumption.
      * congruence.
      * destruct w, e as [eo ef el]; simpl in *; subst.
        apply Z.eqb_neq in Ho.
        unfold get_lock. run_prims. rewrite Ho. run_prims.
        rewrite flock_loop_run, Hl. cbn [events final].
        repeat split; no_write_list.
    + rewrite (get_lock_open_fails name e w Hfp (or_intror Hf)).
      cbn [final events].
      repeat split; try (destruct w; reflexivity).
      apply open_failure_no_write.
Qed.

(** The start-up either ends with the lock held, or has not touched the
    pidfile. *)
Lemma startup_lock_or_unchanged (e : env) (w : world) :
  daemon_lockfp w = None ->
  os_locked (final (startup e w)) = true
  \/ (os_pidfile (final (startup e w)) = os_pidfile w
      /\ os_locked (final (startup e w)) = os_locked w
      /\ Forall (fun ev => is_pidfile_write ev = false)
                (events (startup e w))).
Proof.
  intros Hfp.
  destruct w, e as [km ies ikr el ed irb pc wk]; simpl in *; subst.
  unfold startup. run_prims.
  destruct km as [| mode]; run_prims.
  { right. rewrite die_run. cbn [events final].
    repeat split; no_write_list. }
  rewrite init_rng_stats_run. run_prims.
  destruct ies as [err |]; run_prims;
    [right; repeat split; no_write_list |].
  destruct ikr as [err |]; run_prims;
    [right; repeat split; no_write_list |].
  destruct (nonzero (daemon arguments0)); run_prims;
    [| right; repeat split; no_write_list].
  destruct (lock_verdict el) as [[] | s | |] eqn:Hv.
  - left.
    match goal with
    | |- context [get_lock ?n ?l ?w] =>
        rewrite (get_lock_fresh_run n l w eq_refl Hv)
    end.
    run_prims. destruct ed as [child |]; run_prims; [| reflexivity].
    change (0 <? 0) with false. run_prims.
    match goal with
    | |- context [get_lock ?n ?l ?w] =>
        rewrite (get_lock_again n l w _ eq_refl)
    end.
    run_prims. reflexivity.
  - right.
    match goal with
    | |- context [get_lock ?n ?l ?w] =>
        destruct (get_lock_not_acquired n l w eq_refl) as [Hne [Hd [Hl He]]];
        [rewrite Hv; discriminate |];
        destruct (get_lock n l w) as [ev w1 o]
    end.
    cbn [outcome final events] in Hne, Hd, Hl, He.
    destruct o as [[] | s' | |]; [congruence | | |];
      repeat split; try assumption; no_write_list.
  - right.
    match goal with
    | |- context [get_lock ?n ?l ?w] =>
        destruct (get_lock_not_acquired n l w eq_refl) as [Hne [Hd [Hl He]]];
        [rewrite Hv; discriminate |];
        destruct (get_lock n l w) as [ev w1 o]
    end.
    cbn [outcome final events] in Hne, Hd, Hl, He.
    destruct o as [[] | s' | |]; [congruence | | |];
      repeat split; try assumption; no_write_list.
  - right.
    match goal with
    | |- context [get_lock ?n ?l ?w] =>
        destruct (get_lock_not_acquired n l w eq_refl) as [Hne [Hd [Hl He]]];
        [rewrite Hv; discriminate |];
        destruct (get_lock n l w) as [ev w1 o]
    end.
    cbn [outcome final events] in Hne, Hd, Hl, He.
    destruct o as [[] | s' | |]; [congruence | | |];
      repeat split; try assumption; no_write_list.
Qed.

Lemma main_loop_no_write (wakes : list wake) (st : Z) :
  emits_only (fun ev => is_pidfile_write ev = false) (main_loop st wakes).
Proof.
  revert st. induction wakes as [| k rest IH]; intros st w.
  - rewrite main_loop_nil. case_if; repeat constructor.
  - rewrite main_loop_cons. case_if; [constructor |].
    apply emits_bind; [| intros st'; apply IH].
    intros w'. rewrite wait_step_run. cbv zeta.
    case_if; cbn [events]; repeat constructor.
Qed.

Lemma tail_no_write (e : env) :
  emits_only (fun ev => is_pidfile_write ev = false)
        (bind (post_fork_initialization e) (fun _ =>
         bind (fire_up_worker_threads e) (fun _ =>
         bind (main_loop RNGD_STAT_SLEEP_TIME (e_wakes e))
              (fun _ => finish)))).
Proof.
  apply emits_bind; [| intros _].
  { intros w. rewrite post_fork_run.
    destruct (e_init_rng_buffers e); repeat constructor. }
  apply emits_bind; [| intros _].
  { intros w. rewrite fire_up_run. case_if; cbn [events].
    - unfold the_three_workers. no_write_list.
    - repeat constructor. }
  apply emits_bind; [apply main_loop_no_write | intros _].
  intros w. rewrite finish_run. cbn [events].
  destruct (exitstatus w); repeat constructor.
Qed.

(** X15: a process that does not hold the pidfile lock when its run ends
    has never changed the pidfile.  Whatever the environment answers --
    [main] exits early, runs in the foreground, fails to lock or is still
    waiting in [flock], also when the lock would have been granted -- if
    the lock is not held at the end, then it never was, the pidfile is at
    the end as it was at the start, and no [fprintf] or [ftruncate] on it
    is among the events. *)
Theorem pidfile_written_only_under_lock (e : env) (w : world) :
  daemon_lockfp w = None ->
  os_locked (final (main e w)) = false ->
  os_pidfile (final (main e w)) = os_pidfile w
  /\ os_locked w = false
  /\ Forall (fun ev => is_pidfile_write ev = false) (events (main e w)).
Proof.
  intros Hfp Hend.
  assert (Hstop : (forall a, outcome (startup e w) <> Ret a) ->
                  final (main e w) = final (startup e w)
                  /\ events (main e w) = events (startup e w)).
  { intros Hne. unfold main.
    destruct (bind_stop_run (startup e)
                (fun _ => bind (post_fork_initialization e) (fun _ =>
                          bind (fire_up_worker_threads e) (fun _ =>
                          bind (main_loop RNGD_STAT_SLEEP_TIME (e_wakes e))
                               (fun _ => finish)))) w Hne) as [Hev [Hfin _]].
    split; assumption. }
  assert (Hlocked : os_locked (final (main e w))
                    = os_locked (final (startup e w))).
  { destruct (outcome (startup e w)) as [[] | s | |] eqn:Ho.
    - exact (f_equal (fun p => snd p) (main_keeps_after_startup e w Ho)).
    - destruct Hstop as [-> _]; [intros a; discriminate |].
      reflexivity.
    - destruct Hstop as [-> _]; [intros a; discriminate |].
      reflexivity.
    - destruct Hstop as [-> _]; [intros a; discriminate |].
      reflexivity. }
  destruct (startup_lock_or_unchanged e w Hfp) as [Ht | [Hd [Hl Hev]]];
    [congruence |].
  split; [| split; [congruence |]].
  - destruct (outcome (startup e w)) as [[] | s | |] eqn:Ho.
    + rewrite <- Hd.
      exact (f_equal (fun p => snd (fst p))
                     (main_keeps_after_startup e w Ho)).
    + destruct Hstop as [-> _]; [intros a; discriminate |].
      exact Hd.
    + destruct Hstop as [-> _]; [intros a; discriminate |].
      exact Hd.
    + destruct Hstop as [-> _]; [intros a; discriminate |].
      exact Hd.
  - destruct (outcome (startup e w)) as [[] | s | |] eqn:Ho.
    + unfold main. rewrite (bind_ret_run _ _ _ _ Ho). cbn [events].
      apply Forall_app. split; [exact Hev | apply tail_no_write].
    + destruct Hstop as [_ ->]; [intros a; discriminate |].
      exact Hev.
    + destruct Hstop as [_ ->]; [intros a; discriminate |].
      exact Hev.
    + destruct Hstop as [_ ->]; [intros a; discriminate |].
      exact Hev.
Qed.

(** ** Accounting of sleeps and dumps *)

Lemma nonzero_false (x : Z) : nonzero x = false <-> x = 0.
Proof.
  unfold nonzero. destruct (Z.eqb_spec x 0); simpl; split; intros;
    congruence.
Qed.

Lemma dump_events_count (s : rng_stats_t) :
  List.length (filter is_bits_received (dump_events s)) = 1%nat
  /\ filter is_sleep (dump_events s) = [].
Proof. split; reflexivity. Qed.

Lemma main_loop_account (wakes : list wake) (st : Z) (w : world) :
  nonzero (gotsigterm w) = false ->
  nonzero (gotsigusr1 w) = false ->
  List.length (filter is_bits_received (events (main_loop st wakes w)))
  = List.length (filter wake_due (consumed wakes))
  /\ List.length (filter is_sleep (events (main_loop st wakes w)))
     = (List.length (consumed wakes)
        + (if existsb sigterm wakes then 0 else 1))%nat.
Proof.
  revert st w. induction wakes as [| k rest IH]; intros st w Ht Hu.
  - rewrite main_loop_nil, Ht. split; reflexivity.
  - rewrite main_loop_cons, Ht.
    destruct (wait_step_term st k w) as [st' [Ho _]].
    rewrite (bind_ret_run _ _ _ _ Ho). cbn [events].
    rewrite !filter_app, !List.length_app.
    assert (Hu1 : nonzero (gotsigusr1 (after_sleep k w)) = sigusr1 k).
    { unfold after_sleep, deliver_signals. run_prims.
      destruct (sigusr1 k); [reflexivity | exact Hu]. }
    pose proof (nonzero_term_after k w) as Ht1. rewrite Ht, orb_false_r in Ht1.
    assert (Hstep :
      events (wait_step st k w)
      = EvSleep (wrap c_uint st)
        :: (if wake_due k then dump_events (rng_stats (after_sleep k w))
            else [])
      /\ nonzero (gotsigterm (final (wait_step st k w))) = sigterm k
      /\ nonzero (gotsigusr1 (final (wait_step st k w))) = false).
    { rewrite wait_step_run. cbv zeta. rewrite Hu1, Ht1. fold (wake_due k).
      destruct (wake_due k) eqn:Hdue; cbn [events final].
      - repeat split. destruct (after_sleep k w); exact Ht1.
      - repeat split; [exact Ht1 |].
        unfold wake_due in Hdue. rewrite Hu1.
        destruct (sigusr1 k); [| reflexivity].
        rewrite orb_true_r in Hdue. discriminate. }
    destruct Hstep as [Hev [Ht2 Hu2]]. rewrite Hev.
    cbn [consumed existsb filter is_bits_received is_sleep List.length].
    destruct (sigterm k) eqn:Hk.
    + assert (Hend : main_loop st' rest (final (wait_step st k w)) =
                     {| events := []; final := final (wait_step st k w);
                        outcome := Ret tt |}).
      { destruct rest; [rewrite main_loop_nil | rewrite main_loop_cons];
          rewrite Ht2; reflexivity. }
      rewrite Hend. cbn [events filter List.length orb].
      assert (Hd : wake_due k = true)
        by (unfold wake_due; rewrite Hk; apply orb_true_r).
      rewrite Hd.
      destruct (dump_events_count (rng_stats (after_sleep k w)))
        as [H1 H2].
      rewrite H1, H2. split; reflexivity.
    + destruct (IH st' _ Ht2 Hu2) as [IH1 IH2]. rewrite IH1, IH2.
      cbn [orb]. destruct (wake_due k) eqn:Hd.
      * destruct (dump_events_count (rng_stats (after_sleep k w)))
          as [H1 H2].
        rewrite H1, H2. cbn [filter List.length]. rewrite Hd.
        cbn [List.length]. split; lia.
      * cbn [filter List.length]. rewrite Hd. split; lia.
Qed.

(** X16: entered with no request pending, the wait loop sleeps once per
    wake up to the first one that carries a termination signal (and once
    more, for good, if there is none), and dumps the statistics once for
    each of these wakes on which the timer ran out or a signal was
    delivered, and not otherwise. *)
Theorem main_loop_sleeps_and_dumps (wakes : list wake) (st : Z) (w : world) :
  gotsigterm w = 0 -> gotsigusr1 w = 0 ->
  List.length (filter is_bits_received (events (main_loop st wakes w)))
  = List.length (filter wake_due (consumed wakes))
  /\ List.length (filter is_sleep (events (main_loop st wakes w)))
     = (List.length (consumed wakes)
        + (if existsb sigterm wakes then 0 else 1))%nat.
Proof.
  intros Ht Hu. apply main_loop_account; apply nonzero_false; assumption.
Qed.

Lemma main_loop_sleep_bounds (wakes : list wake) (st : Z) (w : world) :
  0 < st <= 3600 ->
  Forall (fun k => 0 <= remaining k <= 3600) wakes ->
  Forall (fun ev => forall n, ev = EvSleep n -> 0 < n <= 3600)
         (events (main_loop st wakes w)).
Proof.
  revert st w. induction wakes as [| k rest IH]; intros st w Hst Hall.
  - rewrite main_loop_nil. case_if; cbn [events]; [constructor |].
    constructor; [| constructor].
    intros n H. inversion H; subst.
    rewrite (wrap_id c_uint) by (unfold in_range; simpl; lia). exact Hst.
  - inversion Hall as [| k' rest' Hk Hrest]; subst.
    rewrite main_loop_cons. case_if; cbn [events]; [constructor |].
    destruct (wait_step_term st k w) as [st' [Ho _]].
    rewrite (bind_ret_run _ _ _ _ Ho). cbn [events].
    assert (Hst' : 0 < st' <= 3600).
    { revert Ho. rewrite wait_step_run. cbv zeta.
      destruct (wrap c_int (remaining k) =? 0) eqn:Hz; cbn [orb outcome].
      - intros H; inversion H; subst. unfold RNGD_STAT_SLEEP_TIME. lia.
      - apply Z.eqb_neq in Hz.
        rewrite (wrap_id c_int) in Hz by (unfold in_range; simpl; lia).
        case_if; cbn [outcome]; intros H; inversion H; subst.
        + unfold RNGD_STAT_SLEEP_TIME. lia.
        + rewrite (wrap_id c_int) by (unfold in_range; simpl; lia). lia. }
    apply Forall_app. split; [| apply IH; assumption].
    rewrite wait_step_run. cbv zeta. case_if; cbn [events].
    + constructor.
      * intros n H. inversion H; subst.
        rewrite (wrap_id c_uint) by (unfold in_range; simpl; lia). exact Hst.
      * unfold dump_events.
        repeat (constructor; [intros n H; discriminate H |]).
        constructor.
    + constructor; [| constructor]. intros n H. inversion H; subst.
      rewrite (wrap_id c_uint) by (unfold in_range; simpl; lia). exact Hst.
Qed.

(** X17: the wait loop never spins: when [sleep] returns no more than
    the period, every sleep the loop asks for lasts at least one second
    and at most the period of 3600. *)
Theorem main_loop_never_spins (wakes : list wake) (w : world) :
  Forall (fun k => 0 <= remaining k <= 3600) wakes ->
  Forall (fun ev => forall n, ev = EvSleep n -> 0 < n <= 3600)
         (events (main_loop RNGD_STAT_SLEEP_TIME wakes w)).
Proof.
  apply main_loop_sleep_bounds. unfold RNGD_STAT_SLEEP_TIME. lia.
Qed.

End MainMore.
(** * Concrete runs *)

#[export] Existing Instance sample_types.

(** A [flock] call interrupted by a signal is repeated: here the second
    call gets the lock and [get_lock] returns. *)
Lemma get_lock_retries_interrupted_flock :
  let r := get_lock PIDFILE interrupted_lock (boot 100 "") in
  hd_error (e_flock interrupted_lock) = Some (Some EINTR)
  /\ outcome r = Ret tt
  /\ List.length (filter is_flock (events r)) = 2%nat.
Proof. vm_compute. repeat split. Qed.

Lemma get_lock_failure_exits_witness :
  daemon_lockfp (boot 100 ("4711" ++ newline)%string) = None
  /\ events (get_lock PIDFILE busy_lock (boot 100 ("4711" ++ newline)%string)) =
     [ EvOpen PIDFILE; EvFdopen 5; EvFcntl 5; EvFlock 5; EvFlock 5;
       EvRewind; EvFscanf;
       EvLog LOG_ERROR (MsgCantLockPid PIDFILE 4711); EvExit EXIT_USAGE ].
Proof.
  split; [reflexivity |].
  destruct (get_lock_failure_exits PIDFILE busy_lock
              (boot 100 ("4711" ++ newline)%string) eq_refl) as [_ [H _]].
  exact (proj2 (proj2 (proj2
           (H EWOULDBLOCK ltac:(discriminate) eq_refl eq_refl)))).
Defined.

(** C2 as stated fails: on an unsupported kernel [main] exits through
    [die] and no statistics line is logged. *)
Lemma die_exits_without_dump :
  let r := main (sample_env KERNEL_UNSUPPORTED busy_lock (fun _ => 0) [])
                (boot 100 "") in
  outcome r = Exit EXIT_OSERR
  /\ existsb is_stats_line (events r) = false
  /\ events r = [ EvKernelMode; EvLog LOG_ERROR MsgUnsupportedKernel;
                  EvExit EXIT_OSERR ].
Proof. vm_compute. repeat split. Qed.

Lemma stats_dump_before_exit_witness :
  let e := sample_env (KERNEL_supported 0) interrupted_lock (fun _ => 0)
                      [timer_wake; term_wake] in
  let r := bind (bind (startup e) (fun _ => post_fork_initialization e))
                (fun _ => fire_up_worker_threads e) (boot 100 "") in
  outcome r = Ret tt
  /\ gotsigterm (final r) = 0
  /\ outcome (main e (boot 100 "")) = Exit EXIT_SUCCESS
  /\ exists pre,
       events (main e (boot 100 "")) =
       pre ++ dump_events (rng_stats (final (main e (boot 100 ""))))
           ++ [EvLog LOG_INFO MsgExiting; EvExit EXIT_SUCCESS].
Proof.
  intros e r.
  assert (Hret : outcome r = Ret tt) by (vm_compute; reflexivity).
  assert (Hz : gotsigterm (final r) = 0) by (vm_compute; reflexivity).
  assert (Hs : outcome (main e (boot 100 "")) = Exit EXIT_SUCCESS)
    by (vm_compute; reflexivity).
  split; [exact Hret |]. split; [exact Hz |]. split; [exact Hs |].
  exact (proj2 (proj2 (stats_dump_before_exit EXIT_SUCCESS 3600 [] e
                         (boot 100 ""))) Hret Hz EXIT_SUCCESS Hs).
Defined.

(** C3 as stated fails: with the pidfile locked by another instance,
    [main] exits with [EXIT_USAGE], which is not [EXIT_OSERR]. *)
Lemma lock_failure_exits_with_usage :
  let r := main (sample_env (KERNEL_supported 0) busy_lock (fun _ => 0) [])
                (boot 100 ("4711" ++ newline)%string) in
  outcome r = Exit EXIT_USAGE
  /\ outcome r <> Exit EXIT_OSERR
  /\ filter (fun ev => match ev with
                        | EvLog LOG_ERROR _ => true
                        | _ => false
                        end) (events r)
     = [EvLog LOG_ERROR (MsgCantLockPid PIDFILE 4711)].
Proof.
  vm_compute. split; [reflexivity |]. split; [discriminate | reflexivity].
Qed.

Lemma fatal_exit_codes_witness :
  (reaches_lock (sample_env (KERNEL_supported 0) busy_lock (fun _ => 0) [])
                (boot 100 "")
   /\ lock_verdict busy_lock = Exit EXIT_USAGE
   /\ outcome (main (sample_env (KERNEL_supported 0) busy_lock
                                (fun _ => 0) [])
                    (boot 100 "")) = Exit EXIT_USAGE)
  /\ (e_init_entropy_source no_source_env <> None
      /\ outcome (main no_source_env (boot 100 "")) = Exit EXIT_OSERR)
  /\ (e_init_entropy_source no_sink_env = None
      /\ e_init_kernel_rng no_sink_env <> None
      /\ outcome (main no_sink_env (boot 100 "")) = Exit EXIT_OSERR).
Proof.
  assert (Hr : reaches_lock
                 (sample_env (KERNEL_supported 0) busy_lock (fun _ => 0) [])
                 (boot 100 "")).
  { repeat split; discriminate. }
  assert (Hk : KERNEL_supported 0 <> KERNEL_UNSUPPORTED) by discriminate.
  assert (Hs : e_init_entropy_source no_source_env <> None) by discriminate.
  assert (Hn : e_init_kernel_rng no_sink_env <> None) by discriminate.
  split; [| split].
  - split; [exact Hr |]. split; [reflexivity |].
    destruct (fatal_exit_codes
                (sample_env (KERNEL_supported 0) busy_lock (fun _ => 0) [])
                (boot 100 "")) as [_ [_ [_ [H _]]]].
    exact (proj1 (proj2 (H Hr EXIT_USAGE eq_refl))).
  - split; [exact Hs |].
    exact (proj1 (proj2 (fatal_exit_codes no_source_env (boot 100 "")))
             Hk Hs).
  - split; [reflexivity |]. split; [exact Hn |].
    exact (proj1 (proj2 (proj2 (fatal_exit_codes no_sink_env (boot 100 ""))))
             Hk eq_refl Hn).
Defined.

(** C4 as stated fails: with 3 buffers the mark starts at 2 and is
    lowered to 0 before a dump; the dump leaves it at 0; after the dump
    the only count observed is 2, yet the mark still reads 0, not 2. *)
Lemma dump_keeps_old_lowmark :
  let w1 := final (init_rng_stats 3 (boot 100 "")) in
  let w2 := fold_left act [Observe 0; Dump] w1 in
  let w3 := act w2 (Observe 2) in
  buffer_lowmark (rng_stats w1) = 2
  /\ buffer_lowmark (rng_stats w2) = 0
  /\ buffer_lowmark (rng_stats w3) = 0
  /\ buffer_lowmark (rng_stats w3) <> 2.
Proof.
  vm_compute. split; [reflexivity |]. split; [reflexivity |].
  split; [reflexivity | discriminate].
Qed.

Lemma buffer_lowmark_since_init_witness :
  in_range c_int (3 - 1) /\ in_range counter_t (3 - 1)
  /\ buffer_lowmark
       (rng_stats (fold_left act [Observe 1; Dump; Observe 2]
                     (final (init_rng_stats 3 (boot 100 ""))))) = 1.
Proof.
  assert (Hi : in_range c_int (3 - 1)) by (vm_compute; split; [discriminate | reflexivity]).
  assert (Hc : in_range counter_t (3 - 1))
    by (vm_compute; split; [discriminate | reflexivity]).
  split; [exact Hi |]. split; [exact Hc |].
  exact (proj2 (buffer_lowmark_since_init 3 [Observe 1; Dump; Observe 2]
                  (boot 100 "") Hi Hc)).
Defined.

Lemma main_loop_hourly_witness :
  let w := boot 100 "" in
  let r := wait_step 3600 usr1_wake w in
  expected_wake usr1_wake
  /\ gotsigusr1 (after_sleep usr1_wake w) = 1
  /\ outcome r = Ret 3600
  /\ filter is_stats_line (events r) =
       [ EvLog LOG_VERBOSE (MsgBitsReceived 8192);
         EvLog LOG_VERBOSE (MsgBitsSent 4096);
         EvLog LOG_VERBOSE (MsgEntropyAdded 0);
         EvLog LOG_VERBOSE (MsgFipsSuccesses 0);
         EvLog LOG_VERBOSE (MsgFipsFailures 0) ]
  /\ gotsigusr1 (final r) = 0.
Proof.
  intros w r.
  assert (Hk : expected_wake usr1_wake) by (right; left; reflexivity).
  split; [exact Hk |]. split; [reflexivity |].
  destruct (proj1 (proj2 (main_loop_hourly 3600 usr1_wake [] w)) Hk)
    as [Ho [_ [Hd [_ [Hu _]]]]].
  split; [exact Ho |]. split; [| exact Hu].
  transitivity
    (filter is_stats_line
            (dump_events (rng_stats (after_sleep usr1_wake w))));
    [exact Hd | vm_compute; reflexivity].
Defined.

Lemma init_rng_stats_zeroes_but_lowmark_witness :
  in_range c_int (3 - 1) /\ in_range counter_t (3 - 1)
  /\ rng_stats (final (init_rng_stats 3 (boot 100 ""))) =
     set_buffer_lowmark 2 zero_stats.
Proof.
  assert (Hi : in_range c_int (3 - 1)) by (vm_compute; split; [discriminate | reflexivity]).
  assert (Hc : in_range counter_t (3 - 1))
    by (vm_compute; split; [discriminate | reflexivity]).
  split; [exact Hi |]. split; [exact Hc |].
  exact (proj1 (proj2 (init_rng_stats_zeroes_but_lowmark 3 (boot 100 "")
                         Hi Hc))).
Defined.

Lemma get_lock_update_witness :
  let w := set_os_pid 101
             (final (get_lock PIDFILE interrupted_lock (boot 100 ""))) in
  daemon_lockfp w = Some {| f_fd := 5; f_pos := 4; f_pending := None |}
  /\ os_pidfile w = ("100" ++ newline)%string
  /\ events (get_lock PIDFILE interrupted_lock w) =
     [ EvRewind; EvGetpid; EvFprintf ("101" ++ newline)%string; EvFflush;
       EvFtruncate 5 4 ]
  /\ os_pidfile (final (get_lock PIDFILE interrupted_lock w)) =
     ("101" ++ newline)%string.
Proof.
  intros w.
  assert (H : daemon_lockfp w
              = Some {| f_fd := 5; f_pos := 4; f_pending := None |})
    by reflexivity.
  split; [exact H |]. split; [reflexivity |].
  destruct (get_lock_update PIDFILE interrupted_lock w _ H)
    as [_ [He [Hp _]]].
  split; [exact He | exact Hp].
Defined.

Lemma workers_started_before_loop_witness :
  let e := sample_env (KERNEL_supported 0) interrupted_lock
                      (fun t => match t with
                                | do_rng_fips_test_loop => 11
                                | _ => 0
                                end) [timer_wake] in
  outcome (bind (startup e) (fun _ => post_fork_initialization e)
                (boot 100 "")) = Ret tt
  /\ outcome (main e (boot 100 "")) = Exit EXIT_OSERR
  /\ filter is_pthread_create (events (main e (boot 100 ""))) =
     the_three_workers
  /\ filter is_sleep (events (main e (boot 100 ""))) = [].
Proof.
  intros e.
  assert (Hret : outcome (bind (startup e)
                               (fun _ => post_fork_initialization e)
                               (boot 100 "")) = Ret tt) by reflexivity.
  split; [exact Hret |].
  destruct (proj2 (proj2 (workers_started_before_loop e (boot 100 ""))) Hret)
    as [_ [rest [_ [_ [Hfail _]]]]].
  split; [apply Hfail; exists do_rng_fips_test_loop; discriminate |].
  split; reflexivity.
Defined.

Lemma dump_bits_wrap_witness :
  let w := set_rng_stats (with_bytes (2 ^ 28) 1000) (boot 100 "") in
  In (EvLog LOG_VERBOSE (MsgBitsReceived (- 2 ^ 31)))
     (events (dump_rng_stats w))
  /\ In (EvLog LOG_VERBOSE (MsgBitsSent 8000)) (events (dump_rng_stats w)).
Proof.
  intros w.
  destruct (dump_bits_wrap w) as [Hr [Hs _]].
  split; [exact Hr | exact Hs].
Defined.

(** ** Concrete runs for the further properties *)

Lemma get_lock_returns_with_pid_line_witness :
  let w := boot 100 ("4711 stale" ++ newline)%string in
  outcome (get_lock PIDFILE interrupted_lock w) = Ret tt
  /\ os_pidfile (final (get_lock PIDFILE interrupted_lock w))
     = ("100" ++ newline)%string.
Proof.
  intros w.
  assert (H : outcome (get_lock PIDFILE interrupted_lock w) = Ret tt)
    by reflexivity.
  split; [exact H |].
  exact (proj1 (get_lock_returns_with_pid_line PIDFILE interrupted_lock w H)).
Defined.

Lemma get_lock_failure_keeps_pidfile_witness :
  let w := boot 100 ("4711" ++ newline)%string in
  daemon_lockfp w = None
  /\ outcome (get_lock PIDFILE busy_lock w) = Exit EXIT_USAGE
  /\ os_pidfile (final (get_lock PIDFILE busy_lock w))
     = ("4711" ++ newline)%string.
Proof.
  intros w.
  assert (H : outcome (get_lock PIDFILE busy_lock w) = Exit EXIT_USAGE)
    by reflexivity.
  split; [reflexivity |]. split; [exact H |].
  exact (proj1 (proj2 (get_lock_failure_keeps_pidfile PIDFILE busy_lock w
                         EXIT_USAGE eq_refl H))).
Defined.

Lemma conflicting_pid_is_holder_witness :
  let wA := boot 4711 "" in
  let wB := boot 100 ("4711" ++ newline)%string in
  outcome (get_lock PIDFILE interrupted_lock wA) = Ret tt
  /\ os_pidfile wB = os_pidfile (final (get_lock PIDFILE interrupted_lock wA))
  /\ In (EvLog LOG_ERROR (MsgCantLockPid PIDFILE 4711))
        (events (get_lock PIDFILE busy_lock wB)).
Proof.
  intros wA wB.
  assert (HA : outcome (get_lock PIDFILE interrupted_lock wA) = Ret tt)
    by reflexivity.
  assert (Hd : os_pidfile wB
               = os_pidfile (final (get_lock PIDFILE interrupted_lock wA)))
    by reflexivity.
  split; [exact HA |]. split; [exact Hd |].
  refine (proj2 (conflicting_pid_is_holder PIDFILE interrupted_lock busy_lock
                   wA wB HA _ _ eq_refl Hd _ eq_refl eq_refl)).
  - vm_compute. discriminate.
  - vm_compute. split; [discriminate | reflexivity].
  - vm_compute. discriminate.
Defined.

Lemma get_lock_twice_witness :
  let w := boot 100 "" in
  outcome (get_lock PIDFILE interrupted_lock w) = Ret tt
  /\ final (get_lock PIDFILE busy_lock
              (final (get_lock PIDFILE interrupted_lock w)))
     = final (get_lock PIDFILE interrupted_lock w).
Proof.
  intros w.
  assert (H : outcome (get_lock PIDFILE interrupted_lock w) = Ret tt)
    by reflexivity.
  split; [exact H |].
  exact (proj1 (proj2 (get_lock_twice PIDFILE interrupted_lock busy_lock
                         w H))).
Defined.

Lemma startup_daemon_mode_witness :
  let e := sample_env (KERNEL_supported 0) interrupted_lock (fun _ => 0) [] in
  reaches_lock e (boot 100 "")
  /\ lock_verdict (e_lock e) = Ret tt
  /\ e_daemon e = Some 101
  /\ os_pidfile (final (startup e (boot 100 ""))) = ("101" ++ newline)%string
  /\ masterprocess (final (startup e (boot 100 ""))) = 101.
Proof.
  intros e.
  assert (Hr : reaches_lock e (boot 100 ""))
    by (repeat split; discriminate).
  split; [exact Hr |]. split; [reflexivity |]. split; [reflexivity |].
  destruct (startup_daemon_mode e (boot 100 "") 101 Hr eq_refl eq_refl)
    as [_ [_ [Hd [Hm _]]]].
  split; [exact Hd | exact Hm].
Defined.

Lemma startup_foreground_witness :
  let e := sample_env (KERNEL_supported 0) busy_lock (fun _ => 0) [] in
  let w := boot_foreground 100 ("4711" ++ newline)%string in
  daemon (arguments w) = 0
  /\ outcome (startup e w) = Ret tt
  /\ masterprocess (final (startup e w)) = 100
  /\ os_pidfile (final (startup e w)) = ("4711" ++ newline)%string.
Proof.
  intros e w.
  destruct (startup_foreground e w ltac:(discriminate) eq_refl eq_refl
                               eq_refl)
    as [Ho [_ [Hm [_ [Hd _]]]]].
  split; [reflexivity |]. split; [exact Ho |]. split; [exact Hm | exact Hd].
Defined.

Lemma main_runs_until_termination_witness :
  let e := sample_env (KERNEL_supported 0) interrupted_lock (fun _ => 0)
                      [timer_wake; timer_wake] in
  outcome (bind (bind (startup e) (fun _ => post_fork_initialization e))
                (fun _ => fire_up_worker_threads e) (boot 100 "")) = Ret tt
  /\ outcome (main e (boot 100 "")) = Running.
Proof.
  intros e.
  assert (H : outcome (bind (bind (startup e)
                                  (fun _ => post_fork_initialization e))
                            (fun _ => fire_up_worker_threads e)
                            (boot 100 "")) = Ret tt)
    by (vm_compute; reflexivity).
  split; [exact H |].
  exact (proj1 (main_runs_until_termination e (boot 100 "") H)).
Defined.

Lemma thread_failure_is_logged_witness :
  let e := sample_env (KERNEL_supported 0) interrupted_lock
                      fips_thread_fails [] in
  e_init_rng_buffers e = None
  /\ (exists t, e_pthread_create e t <> 0)
  /\ reaches_lock e (boot 100 "")
  /\ exists pre,
       Forall before_threads pre
       /\ events (main e (boot 100 "")) =
          pre ++ the_three_workers
              ++ [ EvLog LOG_ERROR MsgNoThreads;
                   EvLog LOG_ERROR (MsgDieStatus EXIT_OSERR);
                   EvExit EXIT_OSERR ].
Proof.
  intros e.
  assert (Hx : exists t, e_pthread_create e t <> 0)
    by (exists do_rng_fips_test_loop; discriminate).
  assert (Hr : reaches_lock e (boot 100 ""))
    by (repeat split; discriminate).
  split; [reflexivity |]. split; [exact Hx |]. split; [exact Hr |].
  exact (proj1 (thread_failure_is_logged e (boot 100 "") eq_refl Hx)
               Hr eq_refl (ex_intro _ 101 eq_refl)).
Defined.

Lemma daemon_pidfile_until_exit_witness :
  let e := sample_env (KERNEL_supported 0) interrupted_lock (fun _ => 0)
                      [timer_wake; term_wake] in
  reaches_lock e (boot 100 "")
  /\ outcome (main e (boot 100 "")) = Exit EXIT_SUCCESS
  /\ os_pidfile (final (main e (boot 100 ""))) = ("101" ++ newline)%string.
Proof.
  intros e.
  assert (Hr : reaches_lock e (boot 100 ""))
    by (repeat split; discriminate).
  split; [exact Hr |]. split; [vm_compute; reflexivity |].
  exact (proj1 (daemon_pidfile_until_exit e (boot 100 "") 101 Hr
                  eq_refl eq_refl)).
Defined.

Lemma pidfile_written_only_under_lock_witness :
  let e := sample_env (KERNEL_supported 0) interrupted_lock (fun _ => 0)
                      [term_wake] in
  let w := boot_foreground 100 ("4711" ++ newline)%string in
  let e' := sample_env KERNEL_UNSUPPORTED interrupted_lock (fun _ => 0) [] in
  let w' := boot 100 ("4711" ++ newline)%string in
  lock_verdict interrupted_lock = Ret tt
  /\ (outcome (main e w) = Exit EXIT_SUCCESS
      /\ os_locked (final (main e w)) = false
      /\ os_pidfile (final (main e w)) = ("4711" ++ newline)%string)
  /\ (outcome (main e' w') = Exit EXIT_OSERR
      /\ os_locked (final (main e' w')) = false
      /\ os_pidfile (final (main e' w')) = ("4711" ++ newline)%string).
Proof.
  intros e w e' w'.
  assert (Hl : os_locked (final (main e w)) = false)
    by (vm_compute; reflexivity).
  assert (Hl' : os_locked (final (main e' w')) = false)
    by (vm_compute; reflexivity).
  split; [reflexivity |]. split.
  - split; [vm_compute; reflexivity |]. split; [exact Hl |].
    exact (proj1 (pidfile_written_only_under_lock e w eq_refl Hl)).
  - split; [vm_compute; reflexivity |]. split; [exact Hl' |].
    exact (proj1 (pidfile_written_only_under_lock e' w' eq_refl Hl')).
Defined.

Lemma main_loop_sleeps_and_dumps_witness :
  let wakes := [other_wake; timer_wake; term_wake; timer_wake] in
  gotsigterm (boot 100 "") = 0 /\ gotsigusr1 (boot 100 "") = 0
  /\ List.length (filter is_bits_received
                    (events (main_loop 3600 wakes (boot 100 "")))) = 2%nat
  /\ filter is_sleep (events (main_loop 3600 wakes (boot 100 "")))
     = [EvSleep 3600; EvSleep 17; EvSleep 3600].
Proof.
  intros wakes.
  split; [reflexivity |]. split; [reflexivity |].
  split; [| reflexivity].
  exact (proj1 (main_loop_sleeps_and_dumps wakes 3600 (boot 100 "")
                  eq_refl eq_refl)).
Defined.

Lemma main_loop_never_spins_witness :
  Forall (fun k => 0 <= remaining k <= 3600) [other_wake; timer_wake]
  /\ Forall (fun ev => forall n, ev = EvSleep n -> 0 < n <= 3600)
            (events (main_loop RNGD_STAT_SLEEP_TIME [other_wake; timer_wake]
                               (boot 100 ""))).
Proof.
  assert (H : Forall (fun k => 0 <= remaining k <= 3600)
                     [other_wake; timer_wake]).
  { repeat constructor; simpl; lia. }
  split; [exact H |].
  exact (main_loop_never_spins [other_wake; timer_wake] (boot 100 "") H).
Defined.
